(** * Streaming-event reconciliation: router, client reconciler, tool card pairer

    A shallow embedding of
    - the gateway's chat run registry, chat run state and agent event handler
      ([createChatRunRegistry], [createChatRunState], [createAgentEventHandler]),
    - the web client's chat controller ([handleChatEvent]),
    - the tool card pairer of the grouped renderer ([collectAndPairToolCards]),
    followed by the theorems that relate them to the written specification.

    JavaScript values are modelled as follows.  A [number] that the code only
    ever uses as an integer (sequence numbers, message indices, timestamps,
    counters) is a [Z].  A [Map<string, V>] is a [gmap string V]; an array is
    a [list]; a [Set<number>] of array indices is a [gset nat].  An optional
    or nullable value is an [option].  A string used as a condition is truthy
    exactly when it is not empty. *)

From Stdlib Require Import ZArith List Bool Lia.
From stdpp Require Import base option list gmap strings fin_maps.

Open Scope string_scope.
Open Scope list_scope.
Open Scope Z_scope.

(** ** JavaScript conventions *)

Module JS.

(** [if (s)] for a string [s]. *)
Definition truthy_string (s : string) : bool :=
  negb (String.eqb s "").

(** [if (s)] for a [string | undefined]. *)
Definition truthy (s : option string) : bool :=
  match s with
  | Some s => truthy_string s
  | None => false
  end.

(** A value of type [unknown], as far as the code inspects it. *)
Inductive value : Type :=
| VNull
| VBool (b : bool)
| VNum (n : Z)
| VStr (s : string)
| VObj (fields : list field)
with field : Type :=
| Field (key : string) (v : value).

(** [typeof v === "string"], returning the string. *)
Definition as_string (v : option value) : option string :=
  match v with
  | Some (VStr s) => Some s
  | _ => None
  end.

(** [if (v)] for an [unknown] that may be [undefined]. *)
Definition truthy_value (v : option value) : bool :=
  match v with
  | None => false
  | Some VNull => false
  | Some (VBool b) => b
  | Some (VNum n) => negb (Z.eqb n 0)
  | Some (VStr s) => truthy_string s
  | Some (VObj _) => true
  end.

(** [Array.prototype.findIndex]; the callback sees the element and its
    index.  [None] stands for the result [-1]. *)
Fixpoint findIndex_from {A} (p : A -> nat -> bool) (l : list A) (i : nat)
  : option nat :=
  match l with
  | [] => None
  | x :: l' => if p x i then Some i else findIndex_from p l' (S i)
  end.

Definition findIndex {A} (p : A -> nat -> bool) (l : list A) : option nat :=
  findIndex_from p l 0%nat.

End JS.

(** ** The run link registry ([createChatRunRegistry]) *)

Module Registry.

Record ChatRunEntry : Type := mkEntry {
  sessionKey : string;
  clientRunId : string;
}.

(** The closure variable [chatRunSessions]. *)
Abbreviation t := (gmap string (list ChatRunEntry)).

Definition add (sessionId : string) (entry : ChatRunEntry) (m : t) : t :=
  match m !! sessionId with
  | Some queue => <[sessionId := queue ++ [entry]]> m
  | None => <[sessionId := [entry]]> m
  end.

Definition peek (sessionId : string) (m : t) : option ChatRunEntry :=
  match m !! sessionId with
  | Some queue => head queue
  | None => None
  end.

(** After [queue.shift()] or [queue.splice(idx, 1)]: the queue is written
    back, or the key is deleted when the queue became empty. *)
Definition store_queue (sessionId : string) (queue : list ChatRunEntry) (m : t) : t :=
  match queue with
  | [] => delete sessionId m
  | _ :: _ => <[sessionId := queue]> m
  end.

Definition shift (sessionId : string) (m : t) : option ChatRunEntry * t :=
  match m !! sessionId with
  | None => (None, m)
  | Some [] => (None, m)
  | Some (entry :: queue) => (Some entry, store_queue sessionId queue m)
  end.

(** The callback of [findIndex] in [remove]. *)
Definition matches (clientRunId' : string) (sessionKey' : option string)
    (entry : ChatRunEntry) : bool :=
  String.eqb (clientRunId entry) clientRunId'
  && match sessionKey' with
     | Some sk => if JS.truthy_string sk then String.eqb (sessionKey entry) sk else true
     | None => true
     end.

Definition remove (sessionId clientRunId' : string) (sessionKey' : option string)
    (m : t) : option ChatRunEntry * t :=
  match m !! sessionId with
  | None => (None, m)
  | Some [] => (None, m)
  | Some queue =>
      match JS.findIndex (fun entry _ => matches clientRunId' sessionKey' entry) queue with
      | None => (None, m)
      | Some idx =>
          (* [const [entry] = queue.splice(idx, 1)] *)
          (queue !! idx, store_queue sessionId (delete idx queue) m)
      end
  end.

Definition clear (m : t) : t := ∅.

End Registry.

(** ** The event router ([createAgentEventHandler]) *)

Module Router.

Import Registry.

(** [AgentEventPayload], as far as the handler reads it. *)
Record AgentEventPayload : Type := mkEvt {
  runId : string;
  seq : Z;
  stream : string;
  ts : Z;
  data : option (gmap string JS.value);
}.

(** [evt.data?.key] *)
Definition data_get (evt : AgentEventPayload) (key : string) : option JS.value :=
  match data evt with
  | Some d => d !! key
  | None => None
  end.

(** [ChatRunState]: the registry and the two maps. *)
Record ChatRunState : Type := mkChatRunState {
  registry : gmap string (list ChatRunEntry);
  messageIndexByRun : gmap string Z;
  abortedRuns : gmap string Z;
}.

(** Everything the handler mutates: [chatRunState] and [agentRunSeq]. *)
Record World : Type := mkWorld {
  chatRunState : ChatRunState;
  agentRunSeq : gmap string Z;
}.

Definition createChatRunState : ChatRunState :=
  {| registry := ∅; messageIndexByRun := ∅; abortedRuns := ∅ |}.

(** [chatRunState.clear()] *)
Definition clearChatRunState (s : ChatRunState) : ChatRunState :=
  {| registry := Registry.clear (registry s);
     messageIndexByRun := ∅;
     abortedRuns := ∅ |}.

(** *** Outbound payloads *)

Inductive ToolPhase : Type := PhaseStart | PhaseEnd.
Inductive JobState : Type := JobDone | JobError.

Inductive ChatPayload : Type :=
| ChatTool (runId sessionKey : string) (seq : Z) (phase : ToolPhase) (toolName : string)
| ChatDelta (runId sessionKey : string) (seq : Z) (messageIndex : Z)
            (text : string) (timestamp : Z)
| ChatFinal (runId sessionKey : string) (seq : Z)
| ChatError (runId sessionKey : string) (seq : Z) (errorMessage : option string).

(** [data] of the sequence gap diagnostic. *)
Record SeqGap : Type := mkSeqGap {
  reason : string;
  expected : Z;
  received : Z;
}.

Inductive Payload : Type :=
| OfChat (p : ChatPayload)
  (** [{ ...evt, sessionKey }] with [Some], plain [evt] with [None] *)
| OfAgent (evt : AgentEventPayload) (sessionKey : option string)
  (** the sequence gap diagnostic *)
| OfSeqGap (runId stream : string) (ts : Z) (sessionKey : option string)
           (gap : SeqGap).

Record BroadcastOpts : Type := mkOpts { dropIfSlow : option bool }.

(** Calls into the injected callbacks. *)
Inductive Call : Type :=
| Broadcast (event : string) (payload : Payload) (opts : option BroadcastOpts)
| NodeSendToSession (sessionKey event : string) (payload : Payload)
| ClearAgentRunContext (runId : string).

(** A call, with the shared stores as the callee can observe them at the
    moment it is called. *)
Record Emission : Type := mkEmission {
  seen : World;
  call : Call;
}.

(** *** What the surroundings supply for one handler invocation *)

Record SessionLoad : Type := mkSessionLoad {
  entry_verboseLevel : option string;   (* entry?.verboseLevel *)
  cfg_verboseDefault : option string;   (* cfg.agents?.defaults?.verboseDefault *)
}.

Record Env : Type := mkEnv {
  resolveSessionKeyForRun : string -> option string;
  (** [getAgentRunContext(runId)?.verboseLevel] *)
  runContext_verboseLevel : string -> option string;
  normalizeVerboseLevel : option string -> option string;
  (** [None] when [loadSessionEntry] throws *)
  loadSessionEntry : string -> option SessionLoad;
  formatForLog : JS.value -> string;
  (** the reading of [Date.now()] for the gap diagnostic *)
  now_gap : Z;
  (** the reading of [Date.now()] in [emitChatDelta] *)
  now_delta : Z;
}.

(** *** A state and output monad for the handler body *)

Record Res (A : Type) : Type := mkRes {
  val : A;
  world : World;
  log : list Emission;
}.
Arguments mkRes {A} _ _ _.
Arguments val {A} _.
Arguments world {A} _.
Arguments log {A} _.

Definition M (A : Type) : Type := World -> Res A.

Definition ret {A} (a : A) : M A := fun w => mkRes a w [].

Definition bind {A B} (m : M A) (f : A -> M B) : M B :=
  fun w =>
    match m w with
    | mkRes a w1 l1 =>
        match f a w1 with
        | mkRes b w2 l2 => mkRes b w2 (l1 ++ l2)
        end
    end.

Notation "x <- m ;; k" := (bind m (fun x => k))
  (at level 62, m at next level, right associativity).
Notation "m ;;; k" := (bind m (fun _ => k))
  (at level 62, right associativity).

Definition get : M World := fun w => mkRes w w [].

Definition modify (f : World -> World) : M unit := fun w => mkRes tt (f w) [].

Definition emit (c : Call) : M unit := fun w => mkRes tt w [mkEmission w c].

Definition when (b : bool) (m : M unit) : M unit := if b then m else ret tt.

Definition broadcast (event : string) (payload : Payload)
    (opts : option BroadcastOpts) : M unit :=
  emit (Broadcast event payload opts).

Definition nodeSendToSession (sessionKey event : string) (payload : Payload) : M unit :=
  emit (NodeSendToSession sessionKey event payload).

Definition clearAgentRunContext (runId : string) : M unit :=
  emit (ClearAgentRunContext runId).

(** *** Store updates *)

Definition with_messageIndexByRun (f : gmap string Z -> gmap string Z) (w : World) : World :=
  {| chatRunState :=
       {| registry := registry (chatRunState w);
          messageIndexByRun := f (messageIndexByRun (chatRunState w));
          abortedRuns := abortedRuns (chatRunState w) |};
     agentRunSeq := agentRunSeq w |}.

Definition with_abortedRuns (f : gmap string Z -> gmap string Z) (w : World) : World :=
  {| chatRunState :=
       {| registry := registry (chatRunState w);
          messageIndexByRun := messageIndexByRun (chatRunState w);
          abortedRuns := f (abortedRuns (chatRunState w)) |};
     agentRunSeq := agentRunSeq w |}.

Definition with_registry (f : gmap string (list ChatRunEntry) -> gmap string (list ChatRunEntry))
    (w : World) : World :=
  {| chatRunState :=
       {| registry := f (registry (chatRunState w));
          messageIndexByRun := messageIndexByRun (chatRunState w);
          abortedRuns := abortedRuns (chatRunState w) |};
     agentRunSeq := agentRunSeq w |}.

Definition with_agentRunSeq (f : gmap string Z -> gmap string Z) (w : World) : World :=
  {| chatRunState := chatRunState w; agentRunSeq := f (agentRunSeq w) |}.

(** [map.has(key)] *)
Definition has {V} (m : gmap string V) (key : string) : bool :=
  match m !! key with Some _ => true | None => false end.

(** [chatRunState.messageIndexByRun.get(clientRunId) ?? 0] *)
Definition index_of (w : World) (clientRunId : string) : Z :=
  default 0 (messageIndexByRun (chatRunState w) !! clientRunId).

(** [agentRunSeq.get(runId) ?? 0] *)
Definition last_seq (w : World) (runId : string) : Z :=
  default 0 (agentRunSeq w !! runId).

(** *** The emitters *)

Definition emitToolEvent (sessionKey clientRunId : string) (seq : Z)
    (phase : ToolPhase) (toolName : string) : M unit :=
  when (match phase with PhaseStart => true | PhaseEnd => false end)
    (w <- get ;;
     let currentIndex := index_of w clientRunId in
     modify (with_messageIndexByRun <[clientRunId := currentIndex + 1]>)) ;;;
  let payload := OfChat (ChatTool clientRunId sessionKey seq phase toolName) in
  broadcast "chat" payload None ;;;
  nodeSendToSession sessionKey "chat" payload.

Definition emitChatDelta (now : Z) (sessionKey clientRunId : string) (seq : Z)
    (text : string) : M unit :=
  w <- get ;;
  let messageIndex := index_of w clientRunId in
  when (negb (has (messageIndexByRun (chatRunState w)) clientRunId))
    (modify (with_messageIndexByRun <[clientRunId := 0]>)) ;;;
  let payload := OfChat (ChatDelta clientRunId sessionKey seq messageIndex text now) in
  broadcast "chat" payload (Some {| dropIfSlow := Some true |}) ;;;
  nodeSendToSession sessionKey "chat" payload.

Definition emitChatFinal (fmt : JS.value -> string) (sessionKey clientRunId : string)
    (seq : Z) (jobState : JobState) (error : option JS.value) : M unit :=
  modify (with_messageIndexByRun (delete clientRunId)) ;;;
  match jobState with
  | JobDone =>
      let payload := OfChat (ChatFinal clientRunId sessionKey seq) in
      broadcast "chat" payload None ;;;
      nodeSendToSession sessionKey "chat" payload
  | JobError =>
      let errorMessage :=
        match error with
        | Some e => if JS.truthy_value error then Some (fmt e) else None
        | None => None
        end in
      let payload := OfChat (ChatError clientRunId sessionKey seq errorMessage) in
      broadcast "chat" payload None ;;;
      nodeSendToSession sessionKey "chat" payload
  end.

Definition shouldEmitToolEvents (env : Env) (runId : string)
    (sessionKey : option string) : bool :=
  let runVerbose := normalizeVerboseLevel env (runContext_verboseLevel env runId) in
  if JS.truthy runVerbose then bool_decide (runVerbose = Some "on")
  else
    match sessionKey with
    | None => false
    | Some sk =>
        if JS.truthy_string sk then
          match loadSessionEntry env sk with
          | None => false
          | Some l =>
              let sessionVerbose := normalizeVerboseLevel env (entry_verboseLevel l) in
              if JS.truthy sessionVerbose then bool_decide (sessionVerbose = Some "on")
              else
                let defaultVerbose := normalizeVerboseLevel env (cfg_verboseDefault l) in
                bool_decide (defaultVerbose = Some "on")
          end
        else false
    end.

(** *** Registry operations on the shared state *)

Definition registry_shift (sessionId : string) : M (option ChatRunEntry) :=
  fun w =>
    let r := Registry.shift sessionId (registry (chatRunState w)) in
    mkRes (fst r) (with_registry (fun _ => snd r) w) [].

Definition registry_remove (sessionId clientRunId : string) (sessionKey : option string)
  : M (option ChatRunEntry) :=
  fun w =>
    let r := Registry.remove sessionId clientRunId sessionKey (registry (chatRunState w)) in
    mkRes (fst r) (with_registry (fun _ => snd r) w) [].

(** *** How an event is resolved against the stores *)

Definition chatLink_of (w : World) (evt : AgentEventPayload) : option ChatRunEntry :=
  Registry.peek (runId evt) (registry (chatRunState w)).

(** [chatLink?.sessionKey ?? resolveSessionKeyForRun(evt.runId)] *)
Definition sessionKey_of (env : Env) (w : World) (evt : AgentEventPayload) : option string :=
  match chatLink_of w evt with
  | Some l => Some (Registry.sessionKey l)
  | None => resolveSessionKeyForRun env (runId evt)
  end.

(** [chatLink?.clientRunId ?? evt.runId] *)
Definition clientRunId_of (w : World) (evt : AgentEventPayload) : string :=
  match chatLink_of w evt with
  | Some l => Registry.clientRunId l
  | None => runId evt
  end.

Definition isAborted_of (w : World) (evt : AgentEventPayload) : bool :=
  has (abortedRuns (chatRunState w)) (clientRunId_of w evt)
  || has (abortedRuns (chatRunState w)) (runId evt).

Definition lifecyclePhase_of (evt : AgentEventPayload) : option string :=
  if String.eqb (stream evt) "lifecycle" then JS.as_string (data_get evt "phase") else None.

(** [lifecyclePhase === "end" || lifecyclePhase === "error"] *)
Definition is_terminal_phase (p : option string) : bool :=
  match p with
  | Some p => String.eqb p "end" || String.eqb p "error"
  | None => false
  end.

(** [lifecyclePhase === "error" ? "error" : "done"] *)
Definition jobState_of (p : option string) : JobState :=
  match p with
  | Some p => if String.eqb p "error" then JobError else JobDone
  | None => JobDone
  end.

Definition skipDetailedToolBroadcast_of (env : Env) (w : World)
    (evt : AgentEventPayload) : bool :=
  String.eqb (stream evt) "tool"
  && negb (shouldEmitToolEvents env (runId evt) (sessionKey_of env w evt)).

(** The text of an event that takes the first branch:
    [!isAborted && evt.stream === "assistant" && typeof evt.data?.text === "string"]. *)
Definition delta_text (isAborted : bool) (evt : AgentEventPayload) : option string :=
  if negb isAborted && String.eqb (stream evt) "assistant"
  then JS.as_string (data_get evt "text")
  else None.

(** The phase and name of an event that takes the second branch:
    [!isAborted && evt.stream === "tool" && typeof evt.data?.phase === "string"
     && typeof evt.data?.name === "string"]. *)
Definition tool_marker (isAborted : bool) (evt : AgentEventPayload)
  : option (string * string) :=
  if negb isAborted && String.eqb (stream evt) "tool" then
    match JS.as_string (data_get evt "phase"), JS.as_string (data_get evt "name") with
    | Some toolPhase, Some name => Some (toolPhase, name)
    | _, _ => None
    end
  else None.

(** The body of [if (sessionKey) { ... }].  The result is [false] exactly
    when the handler returns from inside the block. *)
Definition dispatch (env : Env) (evt : AgentEventPayload)
    (chatLink : option ChatRunEntry) (sessionKey clientRunId : string)
    (isAborted skipDetailedToolBroadcast : bool) (agentPayload : Payload)
    (lifecyclePhase : option string) : M bool :=
  when (negb skipDetailedToolBroadcast)
    (nodeSendToSession sessionKey "agent" agentPayload) ;;;
  match delta_text isAborted evt with
  | Some text =>
      emitChatDelta (now_delta env) sessionKey clientRunId (seq evt) text ;;; ret true
  | None =>
  match tool_marker isAborted evt with
  | Some (toolPhase, name) =>
      (if String.eqb toolPhase "start" then
         emitToolEvent sessionKey clientRunId (seq evt) PhaseStart name
       else if String.eqb toolPhase "result" then
         emitToolEvent sessionKey clientRunId (seq evt) PhaseEnd name
       else ret tt) ;;; ret true
  | None =>
      if negb isAborted && is_terminal_phase lifecyclePhase then
        match chatLink with
        | Some _ =>
            finished <- registry_shift (runId evt) ;;
            match finished with
            | None => clearAgentRunContext (runId evt) ;;; ret false
            | Some f =>
                emitChatFinal (formatForLog env) (Registry.sessionKey f)
                  (Registry.clientRunId f) (seq evt) (jobState_of lifecyclePhase)
                  (data_get evt "error") ;;; ret true
            end
        | None =>
            emitChatFinal (formatForLog env) sessionKey (runId evt) (seq evt)
              (jobState_of lifecyclePhase) (data_get evt "error") ;;; ret true
        end
      else if isAborted && is_terminal_phase lifecyclePhase then
        modify (with_abortedRuns (delete clientRunId)) ;;;
        modify (with_abortedRuns (delete (runId evt))) ;;;
        modify (with_messageIndexByRun (delete clientRunId)) ;;;
        match chatLink with
        | Some _ => registry_remove (runId evt) clientRunId (Some sessionKey) ;;; ret true
        | None => ret true
        end
      else ret true
  end
  end.

(** The handler returned by [createAgentEventHandler]. *)
Definition handle (env : Env) (evt : AgentEventPayload) : M unit :=
  w <- get ;;
  let chatLink := chatLink_of w evt in
  let sessionKey := sessionKey_of env w evt in
  let clientRunId := clientRunId_of w evt in
  let isAborted := isAborted_of w evt in
  let agentPayload :=
    if JS.truthy sessionKey then OfAgent evt sessionKey else OfAgent evt None in
  let last := last_seq w (runId evt) in
  let skipDetailedToolBroadcast := skipDetailedToolBroadcast_of env w evt in
  when skipDetailedToolBroadcast
    (modify (with_agentRunSeq <[runId evt := seq evt]>)) ;;;
  when (negb (Z.eqb (seq evt) (last + 1)))
    (broadcast "agent"
       (OfSeqGap (runId evt) "error" (now_gap env) sessionKey
                  (mkSeqGap "seq gap" (last + 1) (seq evt))) None) ;;;
  modify (with_agentRunSeq <[runId evt := seq evt]>) ;;;
  when (negb skipDetailedToolBroadcast) (broadcast "agent" agentPayload None) ;;;
  let lifecyclePhase := lifecyclePhase_of evt in
  continue <-
    match sessionKey with
    | Some sk =>
        if JS.truthy_string sk then
          dispatch env evt chatLink sk clientRunId isAborted
            skipDetailedToolBroadcast agentPayload lifecyclePhase
        else ret true
    | None => ret true
    end ;;
  when (continue && is_terminal_phase lifecyclePhase)
    (clearAgentRunContext (runId evt)).

(** *** Feeding the handler a sequence of events *)

Abbreviation Trace := (list (Env * AgentEventPayload)).

(** The handler applied to each event in turn; the log is that of all
    invocations together. *)
Fixpoint run (tr : Trace) : M unit :=
  match tr with
  | [] => ret tt
  | (env, evt) :: tr' => handle env evt ;;; run tr'
  end.

(** Each event of a trace, with the world it is handled in. *)
Fixpoint history (w : World) (tr : Trace) : list (World * Env * AgentEventPayload) :=
  match tr with
  | [] => []
  | (env, evt) :: tr' => (w, env, evt) :: history (world (handle env evt w)) tr'
  end.

(** *** Reading the log *)

(** A call on the chat channel. *)
Definition is_chat_call (c : Call) : bool :=
  match c with
  | Broadcast event _ _ => String.eqb event "chat"
  | NodeSendToSession _ event _ => String.eqb event "chat"
  | ClearAgentRunContext _ => false
  end.

Definition chat_calls (l : list Emission) : list Emission :=
  List.filter (fun e => is_chat_call (call e)) l.

(** The sequence gap diagnostic of a run, on the general channel. *)
Definition is_gap_for (run : string) (c : Call) : bool :=
  match c with
  | Broadcast event (OfSeqGap r _ _ _ _) _ => String.eqb event "agent" && String.eqb r run
  | _ => false
  end.

Definition is_gap (c : Call) : bool :=
  match c with
  | Broadcast _ (OfSeqGap _ _ _ _ _) _ => true
  | _ => false
  end.

Definition gaps_for (run : string) (l : list Emission) : list Call :=
  List.filter (is_gap_for run) (map call l).

Definition is_chat_delta (p : Payload) : bool :=
  match p with
  | OfChat (ChatDelta _ _ _ _ _ _) => true
  | _ => false
  end.

(** [opts?.dropIfSlow] is [true]. *)
Definition droppable (opts : option BroadcastOpts) : bool :=
  match opts with
  | Some o => match dropIfSlow o with Some b => b | None => false end
  | None => false
  end.

(** A broadcast is tagged droppable exactly when it carries a delta. *)
Definition tagged_as_designed (c : Call) : Prop :=
  match c with
  | Broadcast _ p opts => droppable opts = is_chat_delta p
  | _ => True
  end.

(** *** The session block as a function of the event

    [seq_written] is the world once the sequence counter holds the
    received number; [session_block] is the [if (sessionKey) { ... }]
    statement of an event received in [w], executed in [w1]. *)

Definition seq_written (evt : AgentEventPayload) (w : World) : World :=
  with_agentRunSeq <[runId evt := seq evt]> w.

Definition agentPayload_of (env : Env) (w : World) (evt : AgentEventPayload) : Payload :=
  if JS.truthy (sessionKey_of env w evt)
  then OfAgent evt (sessionKey_of env w evt)
  else OfAgent evt None.

Definition session_block (env : Env) (evt : AgentEventPayload) (w w1 : World) : Res bool :=
  match sessionKey_of env w evt with
  | Some sk =>
      if JS.truthy_string sk then
        dispatch env evt (chatLink_of w evt) sk (clientRunId_of w evt)
          (isAborted_of w evt) (skipDetailedToolBroadcast_of env w evt)
          (agentPayload_of env w evt) (lifecyclePhase_of evt) w1
      else mkRes true w1 []
  | None => mkRes true w1 []
  end.

(** *** Classifying events *)

(** A tool marker with phase ["start"], as the handler recognises it. *)
Definition is_tool_start (evt : AgentEventPayload) : bool :=
  match tool_marker false evt with
  | Some (toolPhase, _) => String.eqb toolPhase "start"
  | None => false
  end.

Definition is_terminal (evt : AgentEventPayload) : bool :=
  is_terminal_phase (lifecyclePhase_of evt).

(** The event belongs to the client run [c]. *)
Definition for_run (c : string) (h : World * Env * AgentEventPayload) : bool :=
  String.eqb (clientRunId_of (fst (fst h)) (snd h)) c.

(** The run [c] is in progress at this event: if the event belongs to it,
    its session key resolves, it is not aborted, and the event does not
    end it. *)
Definition live (c : string) (h : World * Env * AgentEventPayload) : bool :=
  let '(w, env, evt) := h in
  if for_run c h then
    JS.truthy (sessionKey_of env w evt)
    && negb (isAborted_of w evt)
    && negb (is_terminal evt)
  else true.

Definition tool_start_for (c : string) (h : World * Env * AgentEventPayload) : bool :=
  for_run c h && is_tool_start (snd h).

(** The received sequence numbers each follow the previous one. *)
Fixpoint consecutive_after (last : Z) (seqs : list Z) : bool :=
  match seqs with
  | [] => true
  | s :: seqs' => Z.eqb s (last + 1) && consecutive_after s seqs'
  end.

Fixpoint strictly_increasing (seqs : list Z) : bool :=
  match seqs with
  | s :: ((s' :: _) as seqs') => Z.ltb s s' && strictly_increasing seqs'
  | _ => true
  end.

(** The sequence numbers of the events of one run, in order. *)
Definition seqs_of (run : string) (tr : Trace) : list Z :=
  map (fun x => seq (snd x)) (List.filter (fun x => String.eqb (runId (snd x)) run) tr).

End Router.

(** ** The client reconciler ([handleChatEvent], transient-array controller) *)

Module Chat.

(** A single streaming message within a run. *)
Record StreamingMessage : Type := mkStreamingMessage {
  index : Z;
  text : string;
  startedAt : Z;
}.

(** The [state] field of a chat notification. *)
Inductive EventState : Type :=
| delta | final | aborted | error | tool_start | tool_end.

Record ToolInfo : Type := mkToolInfo { name : string }.

Module Payload.
(** [ChatEventPayload] *)
Record t : Type := mk {
  runId : string;
  sessionKey : string;
  state : EventState;
  messageIndex : option Z;
  message : option JS.value;
  errorMessage : option string;
  tool : option ToolInfo;
}.
End Payload.
Abbreviation ChatEventPayload := Payload.t.

Section Controller.

(** [GatewayBrowserClient] is opaque to the controller. *)
Context {Client : Type}.

(** [extractText] of [../chat/message-extract]: a string, or [null]. *)
Variable extractText : option JS.value -> option string.

Record ChatState : Type := mkChatState {
  client : option Client;
  connected : bool;
  sessionKey : string;
  chatLoading : bool;
  chatMessages : list JS.value;
  chatThinkingLevel : option string;
  chatSending : bool;
  chatMessage : string;
  chatRunId : option string;
  chatStreamMessages : list StreamingMessage;
  chatToolsRunning : Z;
  chatCurrentTool : option string;
  lastError : option string;
}.

Definition set_chatStreamMessages (v : list StreamingMessage) (s : ChatState) : ChatState :=
  mkChatState (client s) (connected s) (sessionKey s) (chatLoading s) (chatMessages s)
    (chatThinkingLevel s) (chatSending s) (chatMessage s) (chatRunId s)
    v (chatToolsRunning s) (chatCurrentTool s) (lastError s).

Definition set_chatRunId (v : option string) (s : ChatState) : ChatState :=
  mkChatState (client s) (connected s) (sessionKey s) (chatLoading s) (chatMessages s)
    (chatThinkingLevel s) (chatSending s) (chatMessage s) v
    (chatStreamMessages s) (chatToolsRunning s) (chatCurrentTool s) (lastError s).

Definition set_chatToolsRunning (v : Z) (s : ChatState) : ChatState :=
  mkChatState (client s) (connected s) (sessionKey s) (chatLoading s) (chatMessages s)
    (chatThinkingLevel s) (chatSending s) (chatMessage s) (chatRunId s)
    (chatStreamMessages s) v (chatCurrentTool s) (lastError s).

Definition set_chatCurrentTool (v : option string) (s : ChatState) : ChatState :=
  mkChatState (client s) (connected s) (sessionKey s) (chatLoading s) (chatMessages s)
    (chatThinkingLevel s) (chatSending s) (chatMessage s) (chatRunId s)
    (chatStreamMessages s) (chatToolsRunning s) v (lastError s).

Definition set_lastError (v : option string) (s : ChatState) : ChatState :=
  mkChatState (client s) (connected s) (sessionKey s) (chatLoading s) (chatMessages s)
    (chatThinkingLevel s) (chatSending s) (chatMessage s) (chatRunId s)
    (chatStreamMessages s) (chatToolsRunning s) (chatCurrentTool s) v.

(** [existing.text = text] for the first message with the given index:
    the array keeps its elements, the found one has its text replaced. *)
Fixpoint assign_text (messageIndex : Z) (newText : string)
    (l : list StreamingMessage) : list StreamingMessage :=
  match l with
  | [] => []
  | m :: l' =>
      if Z.eqb (index m) messageIndex
      then mkStreamingMessage (index m) newText (startedAt m) :: l'
      else m :: assign_text messageIndex newText l'
  end.

(** [Array.prototype.sort((a, b) => a.index - b.index)], a stable sort. *)
Fixpoint insert_by_index (m : StreamingMessage) (l : list StreamingMessage)
  : list StreamingMessage :=
  match l with
  | [] => [m]
  | x :: l' =>
      if Z.leb (index m) (index x) then m :: x :: l' else x :: insert_by_index m l'
  end.

Fixpoint sort_by_index (l : list StreamingMessage) : list StreamingMessage :=
  match l with
  | [] => []
  | m :: l' => insert_by_index m (sort_by_index l')
  end.

(** [n || 0] on a counter. *)
Definition or_zero (n : Z) : Z := if Z.eqb n 0 then 0 else n.

(** The state after [final] and [aborted]. *)
Definition reset_run (s : ChatState) : ChatState :=
  set_chatCurrentTool None
    (set_chatToolsRunning 0
       (set_chatRunId None
          (set_chatStreamMessages [] s))).

(** [handleChatEvent]; [now] is the reading of [Date.now()].  The second
    component is the returned value, [None] for [null]. *)
Definition handleChatEvent (now : Z) (state : ChatState)
    (payload : option ChatEventPayload) : ChatState * option EventState :=
  match payload with
  | None => (state, None)
  | Some payload =>
      if negb (String.eqb (Payload.sessionKey payload) (sessionKey state)) then
        (state, None)
      else if JS.truthy_string (Payload.runId payload)
              && JS.truthy (chatRunId state)
              && negb (bool_decide (Some (Payload.runId payload) = chatRunId state)) then
        (state, None)
      else
        let state' :=
          match Payload.state payload with
          | delta =>
              match extractText (Payload.message payload) with
              | Some newText =>
                  let messageIndex := default 0 (Payload.messageIndex payload) in
                  match find (fun m => Z.eqb (index m) messageIndex)
                             (chatStreamMessages state) with
                  | Some _ =>
                      set_chatStreamMessages
                        (assign_text messageIndex newText (chatStreamMessages state))
                        state
                  | None =>
                      let newMsg := mkStreamingMessage messageIndex newText now in
                      set_chatStreamMessages
                        (sort_by_index (chatStreamMessages state ++ [newMsg]))
                        state
                  end
              | None => state
              end
          | tool_start =>
              set_chatCurrentTool (option_map name (Payload.tool payload))
                (set_chatToolsRunning (or_zero (chatToolsRunning state) + 1) state)
          | tool_end =>
              let s1 :=
                set_chatToolsRunning
                  (Z.max 0 (or_zero (chatToolsRunning state) - 1)) state in
              if Z.eqb (chatToolsRunning s1) 0 then set_chatCurrentTool None s1 else s1
          | final => reset_run state
          | aborted => reset_run state
          | error =>
              set_lastError
                (Some (default "chat error" (Payload.errorMessage payload)))
                (reset_run state)
          end in
        (state', Some (Payload.state payload))
  end.

End Controller.

End Chat.

(** ** The tool card pairer ([collectAndPairToolCards]) *)

Module GroupedRender.

Inductive CardKind : Type := call | result.

(** Modelled from the spec: the [ToolCard] type of [../types/chat-types],
    which is not among the sources: [{ kind: call|result, id?, name, text? }]. *)
Record ToolCard : Type := mkToolCard {
  kind : CardKind;
  id : option string;
  name : string;
  text : option string;
}.

Definition is_call (card : ToolCard) : bool :=
  match kind card with call => true | result => false end.

(** [{ ...call, text: r.text }] *)
Definition merge (callCard r : ToolCard) : ToolCard :=
  mkToolCard (kind callCard) (id callCard) (name callCard) (text r).

(** The first loop: the cards of all messages, split by kind. *)
Definition collectToolCards {Message : Type} (extractToolCards : Message -> list ToolCard)
    (messages : list Message) : list ToolCard * list ToolCard :=
  foldl
    (fun acc message =>
       foldl
         (fun (acc : list ToolCard * list ToolCard) card =>
            if is_call card then (fst acc ++ [card], snd acc)
            else (fst acc, snd acc ++ [card]))
         acc (extractToolCards message))
    ([], []) messages.

(** The search for a result of one call: by id when the call has one, then
    by name; only among indices not in [usedResults]. *)
Definition find_result (resultCards : list ToolCard) (usedResults : gset nat)
    (callCard : ToolCard) : option nat :=
  let byId :=
    if JS.truthy (id callCard) then
      JS.findIndex
        (fun r i => negb (bool_decide (i ∈ usedResults))
                    && bool_decide (id r = id callCard))
        resultCards
    else None in
  match byId with
  | Some i => Some i
  | None =>
      JS.findIndex
        (fun r i => negb (bool_decide (i ∈ usedResults))
                    && String.eqb (name r) (name callCard))
        resultCards
  end.

(** The loop over [callCards].  [None] stands for the [TypeError] that
    reading [.text] of a missing array element would raise. *)
Fixpoint pair_calls (resultCards callCards paired : list ToolCard)
    (usedResults : gset nat) : option (list ToolCard * gset nat) :=
  match callCards with
  | [] => Some (paired, usedResults)
  | callCard :: rest =>
      match find_result resultCards usedResults callCard with
      | Some resultIndex =>
          match resultCards !! resultIndex with
          | Some r =>
              pair_calls resultCards rest (paired ++ [merge callCard r])
                ({[resultIndex]} ∪ usedResults)
          | None => None
          end
      | None => pair_calls resultCards rest (paired ++ [callCard]) usedResults
      end
  end.

(** The last loop: [resultCards[i]] for every [i] not in [usedResults],
    counting from [i]. *)
Fixpoint orphans_from (i : nat) (resultCards : list ToolCard) (usedResults : gset nat)
  : list ToolCard :=
  match resultCards with
  | [] => []
  | r :: rest =>
      if bool_decide (i ∈ usedResults) then orphans_from (S i) rest usedResults
      else r :: orphans_from (S i) rest usedResults
  end.

Definition pairToolCards (callCards resultCards : list ToolCard) : option (list ToolCard) :=
  match pair_calls resultCards callCards [] ∅ with
  | Some (paired, usedResults) => Some (paired ++ orphans_from 0 resultCards usedResults)
  | None => None
  end.

Definition collectAndPairToolCards {Message : Type}
    (extractToolCards : Message -> list ToolCard) (messages : list Message)
  : option (list ToolCard) :=
  let cards := collectToolCards extractToolCards messages in
  pairToolCards (fst cards) (snd cards).

(** *** The pairing as the specification words it

    Each call searches the result cards that are still unconsumed, first
    for one with its identifier, then for one with its name; a match is
    merged and leaves the pool; what remains in the pool at the end is
    emitted standalone. *)

Fixpoint take_first (p : ToolCard -> bool) (pool : list ToolCard)
  : option (ToolCard * list ToolCard) :=
  match pool with
  | [] => None
  | r :: pool' =>
      if p r then Some (r, pool')
      else match take_first p pool' with
           | Some (x, others) => Some (x, r :: others)
           | None => None
           end
  end.

Definition same_id (callCard r : ToolCard) : bool := bool_decide (id r = id callCard).
Definition same_name (callCard r : ToolCard) : bool := String.eqb (name r) (name callCard).

Definition spec_match (callCard : ToolCard) (pool : list ToolCard)
  : option (ToolCard * list ToolCard) :=
  match (if JS.truthy (id callCard) then take_first (same_id callCard) pool else None) with
  | Some x => Some x
  | None => take_first (same_name callCard) pool
  end.

Fixpoint spec_pair (callCards pool : list ToolCard) : list ToolCard :=
  match callCards with
  | [] => pool
  | callCard :: rest =>
      match spec_match callCard pool with
      | Some (r, pool') => merge callCard r :: spec_pair rest pool'
      | None => callCard :: spec_pair rest pool
      end
  end.

(** What one call contributes to the output: itself, still pending, or
    itself with the text of one of the result cards. *)
Definition pairs_with (resultCards : list ToolCard) (callCard out : ToolCard) : Prop :=
  out = callCard \/ exists r, In r resultCards /\ out = merge callCard r.

End GroupedRender.

(** ** Concrete runs

    The events of the end-to-end scenario of the specification (run [r1],
    session [s1]), and the surroundings they are handled in. *)

Module Scenario.

Import Router.

(** Every run resolves to session [s1]; verbosity is off everywhere. *)
Definition env_s1 : Env :=
  {| resolveSessionKeyForRun := fun _ => Some "s1";
     runContext_verboseLevel := fun _ => None;
     normalizeVerboseLevel := fun v => v;
     loadSessionEntry := fun _ => None;
     formatForLog := fun _ => "failed";
     now_gap := 1000;
     now_delta := 2000 |}.

(** No run resolves to a session. *)
Definition env_unresolved : Env :=
  {| resolveSessionKeyForRun := fun _ => None;
     runContext_verboseLevel := fun _ => None;
     normalizeVerboseLevel := fun v => v;
     loadSessionEntry := fun _ => None;
     formatForLog := fun _ => "failed";
     now_gap := 1000;
     now_delta := 2000 |}.

Definition fresh : World :=
  {| chatRunState := createChatRunState; agentRunSeq := ∅ |}.

Definition delta_evt (run : string) (s : Z) (text : string) : AgentEventPayload :=
  mkEvt run s "assistant" 0 (Some {[ "text" := JS.VStr text ]}).

Definition tool_evt (run : string) (s : Z) (phase name : string) : AgentEventPayload :=
  mkEvt run s "tool" 0
    (Some (<["phase" := JS.VStr phase]> {[ "name" := JS.VStr name ]})).

Definition lifecycle_evt (run : string) (s : Z) (phase : string) : AgentEventPayload :=
  mkEvt run s "lifecycle" 0 (Some {[ "phase" := JS.VStr phase ]}).

(** delta "Hello", tool-start "search", tool-end "search". *)
Definition until_tool_end : Trace :=
  [ (env_s1, delta_evt "r1" 1 "Hello");
    (env_s1, tool_evt "r1" 2 "start" "search");
    (env_s1, tool_evt "r1" 3 "result" "search") ].

(** Two deltas of one run with [seq] 1 and 3. *)
Definition skipping : Trace :=
  [ (env_s1, delta_evt "r1" 1 "Hel"); (env_s1, delta_evt "r1" 3 "Hello") ].

(** Run [r1] streamed a delta before its link to the client run [c1] was
    registered; then [c1] was aborted. *)
Definition linked_late_aborted : World :=
  with_abortedRuns <["c1" := 5]>
    (with_registry (Registry.add "r1" (Registry.mkEntry "s1" "c1"))
       (world (handle env_s1 (delta_evt "r1" 1 "Hi") fresh))).

(** Run [r1], without a link, was aborted. *)
Definition unlinked_aborted : World := with_abortedRuns <["r1" := 5]> fresh.

End Scenario.

(** ** Further code of the same files, and ways of using it *)

Module RegistryUse.

Import Registry.

(** No context key holds an empty queue. *)
Definition nonempty_queues (m : Registry.t) : Prop :=
  forall sessionId queue, m !! sessionId = Some queue -> queue <> [].

(** The queue of a context key, empty when the key is absent. *)
Definition queue_of (sessionId : string) (m : Registry.t) : list ChatRunEntry :=
  default [] (m !! sessionId).

(** [add] for each entry in turn. *)
Definition add_all (sessionId : string) (entries : list ChatRunEntry) (m : Registry.t)
  : Registry.t :=
  foldl (fun m entry => add sessionId entry m) m entries.

(** [shift] called [n] times; the results in order, and the registry left. *)
Fixpoint shift_times (n : nat) (sessionId : string) (m : Registry.t)
  : list (option ChatRunEntry) * Registry.t :=
  match n with
  | O => ([], m)
  | S n' =>
      let r := shift sessionId m in
      let rest := shift_times n' sessionId (snd r) in
      (fst r :: fst rest, snd rest)
  end.

End RegistryUse.

Module RouterUse.

Import Router.

Definition is_clear_call (c : Call) : bool :=
  match c with
  | ClearAgentRunContext _ => true
  | _ => false
  end.

(** The broadcast of the event itself on the general channel. *)
Definition is_agent_forward (c : Call) : bool :=
  match c with
  | Broadcast event (OfAgent _ _) _ => String.eqb event "agent"
  | _ => false
  end.

(** A call to [nodeSendToSession]. *)
Definition is_node_send (c : Call) : bool :=
  match c with
  | NodeSendToSession _ _ _ => true
  | _ => false
  end.

(** The fields every chat notification has. *)
Definition chat_runId (p : ChatPayload) : string :=
  match p with
  | ChatTool r _ _ _ _ | ChatDelta r _ _ _ _ _ | ChatFinal r _ _ | ChatError r _ _ _ => r
  end.

Definition chat_sessionKey (p : ChatPayload) : string :=
  match p with
  | ChatTool _ sk _ _ _ | ChatDelta _ sk _ _ _ _ | ChatFinal _ sk _ | ChatError _ sk _ _ => sk
  end.

Definition chat_seq (p : ChatPayload) : Z :=
  match p with
  | ChatTool _ _ s _ _ | ChatDelta _ _ s _ _ _ | ChatFinal _ _ s | ChatError _ _ s _ => s
  end.

(** Two surroundings that differ at most in what decides verbosity and in
    the clock reading of the diagnostic. *)
Definition same_but_verbosity (env env' : Env) : Prop :=
  resolveSessionKeyForRun env = resolveSessionKeyForRun env' /\
  formatForLog env = formatForLog env' /\
  now_delta env = now_delta env'.

End RouterUse.

Module ChatUse.

Import Chat.

(** The streaming messages are in strictly ascending order of index. *)
Fixpoint ascending (l : list StreamingMessage) : Prop :=
  match l with
  | [] => True
  | m :: l' => Forall (fun x => index m < index x) l' /\ ascending l'
  end.

End ChatUse.

(** ** The splicing controller ([findRunStartIndex]) *)

Module ChatSplice.

(** [msg.role] of an object: the value of its first field named [role]. *)
Fixpoint field_of (key : string) (fields : list JS.field) : option JS.value :=
  match fields with
  | [] => None
  | JS.Field k v :: rest => if String.eqb k key then Some v else field_of key rest
  end.

(** [msg.role === "user"]; [None] stands for the [TypeError] of reading a
    property of [null]. *)
Definition role_is_user (msg : JS.value) : option bool :=
  match msg with
  | JS.VNull => None
  | JS.VObj fields =>
      Some match field_of "role" fields with
           | Some (JS.VStr r) => String.eqb r "user"
           | _ => false
           end
  | _ => Some false
  end.

(** The loop [for (let i = messages.length - 1; i >= 0; i--)]: [below]
    holds [messages[i]], [messages[i-1]], ..., [messages[0]] and [next] is
    [i + 1]. *)
Fixpoint scan_down (below : list JS.value) (next : nat) : option nat :=
  match below with
  | [] => Some 0%nat
  | msg :: below' =>
      match role_is_user msg with
      | None => None
      | Some true => Some next
      | Some false => scan_down below' (pred next)
      end
  end.

Definition findRunStartIndex (messages : list JS.value) : option nat :=
  scan_down (rev messages) (length messages).

End ChatSplice.

(** ** Avatars ([isAvatarUrl]) *)

Module Avatar.

(** The character a regular expression with the flag [i] compares: ASCII
    letters without their case. *)
Definition fold_case (a : Ascii.ascii) : Ascii.ascii :=
  let n := Ascii.nat_of_ascii a in
  if (Nat.leb 65 n && Nat.leb n 90)%nat then Ascii.ascii_of_nat (n + 32) else a.

(** A string without the case of its ASCII letters. *)
Fixpoint fold_string (s : string) : string :=
  match s with
  | EmptyString => EmptyString
  | String a s' => String (fold_case a) (fold_string s')
  end.

(** [pattern] matches at the start of [s], case aside. *)
Fixpoint starts_with_ci (pattern s : string) : bool :=
  match pattern, s with
  | EmptyString, _ => true
  | String p pattern', String a s' =>
      Ascii.eqb (fold_case p) (fold_case a) && starts_with_ci pattern' s'
  | String _ _, EmptyString => false
  end.

(** [/^https?:\/\//i.test(value) || /^data:image\//i.test(value) || /^\//.test(value)] *)
Definition isAvatarUrl (value : string) : bool :=
  (starts_with_ci "http://" value || starts_with_ci "https://" value)
  || starts_with_ci "data:image/" value
  || String.prefix "/" value.

End Avatar.

Module ClientScenario.

Import Chat.

(** The text of a message that is a plain string. *)
Definition text_of (v : option JS.value) : option string :=
  match v with Some (JS.VStr s) => Some s | _ => None end.

(** Run [r1] of session [main] with two streaming messages. *)
Definition streaming : @ChatState unit :=
  mkChatState None true "main" false [] None false "" (Some "r1")
    [mkStreamingMessage 0 "Hello" 5; mkStreamingMessage 2 "Found" 6] 0 None None.

Definition notify (st : EventState) (i : Z) (t : string) : ChatEventPayload :=
  Payload.mk "r1" "main" st (Some i) (Some (JS.VStr t)) None (Some (mkToolInfo "search")).

End ClientScenario.

Module PairerUse.

Import GroupedRender.

(** [out] shows the call [callCard]: same kind, identifier and name. *)
Definition shows_call (callCard out : ToolCard) : Prop :=
  kind out = kind callCard /\ id out = id callCard /\ name out = name callCard.

End PairerUse.

(** * Properties *)

(** ** Array search *)

Section FindIndex.

Context {A : Type}.

Lemma findIndex_from_None (p : A -> bool) (l : list A) i :
  Forall (fun x => p x = false) l ->
  JS.findIndex_from (fun x _ => p x) l i = None.
Proof.
  intros H. revert i. induction H as [|x l Hx _ IH]; intros i; simpl.
  - reflexivity.
  - rewrite Hx. apply IH.
Qed.

Lemma findIndex_from_first (p : A -> bool) (pre post : list A) x i :
  Forall (fun y => p y = false) pre ->
  p x = true ->
  JS.findIndex_from (fun y _ => p y) (pre ++ x :: post) i = Some (i + length pre)%nat.
Proof.
  intros Hpre Hx. revert i.
  induction Hpre as [|y pre Hy _ IH]; intros i; simpl.
  - rewrite Hx. f_equal. lia.
  - rewrite Hy, IH. f_equal. lia.
Qed.

Lemma delete_at_split (pre post : list A) x :
  delete (length pre) (pre ++ x :: post) = pre ++ post.
Proof. induction pre as [|y pre IH]; simpl; [reflexivity | by rewrite IH]. Qed.

Lemma lookup_at_split (pre post : list A) x :
  (pre ++ x :: post) !! length pre = Some x.
Proof. induction pre as [|y pre IH]; simpl; [reflexivity | exact IH]. Qed.

End FindIndex.

Lemma truthy_string_spec s : JS.truthy_string s = true <-> s <> "".
Proof.
  unfold JS.truthy_string. rewrite negb_true_iff.
  destruct (String.eqb_spec s ""); split; congruence.
Qed.

(** ** Run link registry *)

Section RegistryRemove.

Import Registry.

Variables (contextKey wanted : string) (sessionKey' : option string).

Lemma matches_spec (entry : ChatRunEntry) :
  matches wanted sessionKey' entry = true <->
  clientRunId entry = wanted /\
  (JS.truthy sessionKey' = true -> sessionKey' = Some (sessionKey entry)).
Proof.
  unfold matches. rewrite andb_true_iff.
  destruct (String.eqb_spec (clientRunId entry) wanted) as [Hc|Hc].
  2:{ split; [intros [? _]; discriminate | intros [? _]; contradiction]. }
  destruct sessionKey' as [sk|]; simpl.
  - destruct (JS.truthy_string sk) eqn:Hsk.
    + destruct (String.eqb_spec (sessionKey entry) sk) as [Hs|Hs].
      * split; intros _; repeat split; auto. intros _. by rewrite Hs.
      * split; [intros [_ ?]; discriminate|].
        intros [_ H]. specialize (H eq_refl). congruence.
    + split; intros _; repeat split; auto. discriminate.
  - split; intros _; repeat split; auto. discriminate.
Qed.

(** C10.  [remove] takes out the first entry of the context's queue whose
    [clientRunId] is the wanted one and, when a session key is supplied,
    whose [sessionKey] is the supplied one, and returns it: wherever that
    entry stands, the head of the queue included.  The key is deleted when
    the queue becomes empty.  Without a matching entry the result is
    [undefined] and the registry is unchanged. *)
Theorem remove_first_match (m : Registry.t) :
  (forall pre entry post,
      m !! contextKey = Some (pre ++ entry :: post) ->
      Forall (fun e => matches wanted sessionKey' e = false) pre ->
      matches wanted sessionKey' entry = true ->
      remove contextKey wanted sessionKey' m =
        (Some entry,
         match pre ++ post with
         | [] => delete contextKey m
         | queue => <[contextKey := queue]> m
         end)) /\
  (forall entry post,
      m !! contextKey = Some (entry :: post) ->
      matches wanted sessionKey' entry = true ->
      fst (remove contextKey wanted sessionKey' m) = Some entry /\
      snd (remove contextKey wanted sessionKey' m) !! contextKey =
        match post with [] => None | _ => Some post end) /\
  ((forall queue, m !! contextKey = Some queue ->
                  Forall (fun e => matches wanted sessionKey' e = false) queue) ->
   remove contextKey wanted sessionKey' m = (None, m)).
Proof.
  assert (Hgen : forall pre entry post,
      m !! contextKey = Some (pre ++ entry :: post) ->
      Forall (fun e => matches wanted sessionKey' e = false) pre ->
      matches wanted sessionKey' entry = true ->
      remove contextKey wanted sessionKey' m =
        (Some entry, store_queue contextKey (pre ++ post) m)).
  { intros pre entry post Hq Hpre He. unfold remove. rewrite Hq.
    destruct (pre ++ entry :: post) eqn:Hl; [by destruct pre|]. rewrite <- Hl.
    unfold JS.findIndex.
    rewrite (findIndex_from_first (matches wanted sessionKey')); auto. simpl.
    by rewrite lookup_at_split, delete_at_split. }
  split; [|split].
  - intros pre entry post Hq Hpre He. rewrite (Hgen _ _ _ Hq Hpre He).
    unfold store_queue. by destruct (pre ++ post).
  - intros entry post Hq He. rewrite (Hgen [] entry post Hq ltac:(constructor) He). simpl.
    split; [reflexivity|]. unfold store_queue. destruct post.
    + apply lookup_delete_eq.
    + apply lookup_insert_eq.
  - intros Hnone. unfold remove.
    destruct (m !! contextKey) as [queue|] eqn:Hq; [|reflexivity].
    destruct queue as [|e queue]; [reflexivity|].
    unfold JS.findIndex.
    by rewrite (findIndex_from_None (matches wanted sessionKey')); auto.
Qed.

End RegistryRemove.

(** The head of a two-entry queue is removed by its client run id. *)
Lemma remove_first_match_witness :
  let m : Registry.t :=
    {[ "ctx" := [Registry.mkEntry "s1" "run-a"; Registry.mkEntry "s1" "run-b"] ]} in
  fst (Registry.remove "ctx" "run-a" (Some "s1") m) = Some (Registry.mkEntry "s1" "run-a") /\
  snd (Registry.remove "ctx" "run-a" (Some "s1") m) !! "ctx" =
    Some [Registry.mkEntry "s1" "run-b"].
Proof.
  intros m.
  apply (proj1 (proj2 (remove_first_match "ctx" "run-a" (Some "s1") m))
           (Registry.mkEntry "s1" "run-a") [Registry.mkEntry "s1" "run-b"]).
  - reflexivity.
  - reflexivity.
Defined.

(** ** Client reconciler *)

Section Reconciler.

Import Chat.

Context {Client : Type}.
Variable extractText : option JS.value -> option string.

Implicit Types (state : @ChatState Client) (payload : ChatEventPayload).

(** C9.  A notification for another session, or one that names a run
    other than the active one, is ignored: the handler returns [null] and
    the state is the state it was given.  A run id is present, and a run
    is active, when the string is not empty. *)
Theorem handleChatEvent_guard (now : Z) state payload :
  Payload.sessionKey payload <> sessionKey state \/
  (Payload.runId payload <> "" /\
   exists active, chatRunId state = Some active /\ active <> "" /\
                  Payload.runId payload <> active) ->
  handleChatEvent extractText now state (Some payload) = (state, None).
Proof.
  intros H. unfold handleChatEvent.
  destruct (String.eqb_spec (Payload.sessionKey payload) (sessionKey state)) as [Hs|Hs];
    simpl; [|reflexivity].
  destruct H as [H | (Hrun & active & Hactive & Hne & Hdiff)]; [contradiction|].
  rewrite Hactive. simpl.
  apply truthy_string_spec in Hrun, Hne. rewrite Hrun, Hne. simpl.
  rewrite bool_decide_eq_false_2; [reflexivity|]. congruence.
Qed.

(** *** Replacing the text of a streaming message *)

Lemma find_assign_text messageIndex newText (l : list StreamingMessage) m :
  find (fun m => Z.eqb (index m) messageIndex) l = Some m ->
  find (fun m => Z.eqb (index m) messageIndex) (assign_text messageIndex newText l)
  = Some (mkStreamingMessage (index m) newText (startedAt m)).
Proof.
  induction l as [|x l IH]; simpl; [discriminate|].
  destruct (Z.eqb (index x) messageIndex) eqn:Hx; simpl.
  - intros [= <-]. by rewrite Hx.
  - rewrite Hx. exact IH.
Qed.

Lemma assign_text_fixed messageIndex newText (l : list StreamingMessage) :
  (forall m, In m l -> index m = messageIndex -> text m = newText) ->
  assign_text messageIndex newText l = l.
Proof.
  induction l as [|x l IH]; simpl; intros H; [reflexivity|].
  destruct (Z.eqb_spec (index x) messageIndex) as [Hx|Hx].
  - rewrite <- (H x (or_introl eq_refl) Hx). by destruct x.
  - f_equal. apply IH. intros m Hm. apply H. by right.
Qed.

Lemma assign_text_twice messageIndex newText (l : list StreamingMessage) :
  assign_text messageIndex newText (assign_text messageIndex newText l)
  = assign_text messageIndex newText l.
Proof.
  induction l as [|x l IH]; simpl; [reflexivity|].
  destruct (Z.eqb (index x) messageIndex) eqn:Hx; simpl; rewrite Hx.
  - reflexivity.
  - by rewrite IH.
Qed.

(** *** The sort keeps the elements *)

Lemma In_insert_by_index m x (l : list StreamingMessage) :
  In x (insert_by_index m l) <-> x = m \/ In x l.
Proof.
  induction l as [|y l IH]; simpl.
  - intuition.
  - destruct (Z.leb (index m) (index y)); simpl; [intuition|].
    rewrite IH. intuition.
Qed.

Lemma In_sort_by_index x (l : list StreamingMessage) :
  In x (sort_by_index l) <-> In x l.
Proof.
  induction l as [|y l IH]; simpl; [reflexivity|].
  rewrite In_insert_by_index, IH. intuition.
Qed.

Lemma find_index_None messageIndex (l : list StreamingMessage) :
  find (fun m => Z.eqb (index m) messageIndex) l = None ->
  forall m, In m l -> index m <> messageIndex.
Proof.
  intros Hnone m Hm Heq.
  apply (find_none _ _ Hnone) in Hm. simpl in Hm. lia.
Qed.

Lemma find_index_Some messageIndex (l : list StreamingMessage) m :
  In m l -> index m = messageIndex ->
  exists m', find (fun m => Z.eqb (index m) messageIndex) l = Some m'.
Proof.
  intros Hm Heq.
  destruct (find (fun m => Z.eqb (index m) messageIndex) l) as [m'|] eqn:Hf; [eauto|].
  by destruct (find_index_None _ _ Hf m Hm).
Qed.

(** C6.  A [delta] notification delivered a second time, whatever the
    clock reads then, leaves the whole state, and so the streaming
    messages, as the first delivery left it; the returned value is that of
    the first delivery. *)
Theorem handleChatEvent_delta_idempotent (now1 now2 : Z) state payload :
  Payload.state payload = delta ->
  let first := handleChatEvent extractText now1 state (Some payload) in
  handleChatEvent extractText now2 (fst first) (Some payload) = first /\
  chatStreamMessages (fst (handleChatEvent extractText now2 (fst first) (Some payload)))
  = chatStreamMessages (fst first).
Proof.
  intros Hdelta first.
  assert (H : handleChatEvent extractText now2 (fst first) (Some payload) = first);
    [|by rewrite H].
  subst first. unfold handleChatEvent. rewrite Hdelta.
  destruct (negb (String.eqb (Payload.sessionKey payload) (sessionKey state))) eqn:Hs;
    simpl; [by rewrite Hs|].
  destruct (JS.truthy_string (Payload.runId payload)
            && JS.truthy (chatRunId state)
            && negb (bool_decide (Some (Payload.runId payload) = chatRunId state)))
    eqn:Hr; simpl; [by rewrite Hs, Hr|].
  destruct (extractText (Payload.message payload)) as [newText|] eqn:Ht;
    [|simpl; by rewrite Hs, Hr].
  set (messageIndex := default 0 (Payload.messageIndex payload)).
  destruct (find (fun m => Z.eqb (index m) messageIndex) (chatStreamMessages state))
    as [existing|] eqn:Hf; simpl; rewrite Hs, Hr; simpl.
  - rewrite (find_assign_text _ newText _ _ Hf), assign_text_twice. reflexivity.
  - set (newMsg := mkStreamingMessage messageIndex newText now1).
    destruct (find_index_Some messageIndex
                (sort_by_index (chatStreamMessages state ++ [newMsg])) newMsg)
      as [m' Hm']; [apply In_sort_by_index, in_or_app; right; by left | reflexivity |].
    rewrite Hm'. rewrite assign_text_fixed; [reflexivity|].
    intros m Hm Hidx. apply In_sort_by_index, in_app_or in Hm.
    destruct Hm as [Hm|[<-|[]]]; [|reflexivity].
    by destruct (find_index_None _ _ Hf m Hm).
Qed.

End Reconciler.

(** A stale notification from run ["old"] while run ["new"] is active. *)
Lemma handleChatEvent_guard_witness :
  let extractText (v : option JS.value) :=
    match v with Some (JS.VStr s) => Some s | _ => None end in
  let state : @Chat.ChatState unit :=
    Chat.mkChatState None true "main" false [] None false "" (Some "new")
      [Chat.mkStreamingMessage 0 "Hello" 5] 1 (Some "search") None in
  let payload :=
    Chat.Payload.mk "old" "main" Chat.delta (Some 0) (Some (JS.VStr "stale")) None None in
  Chat.handleChatEvent extractText 9 state (Some payload) = (state, None).
Proof.
  intros extractText state payload.
  apply (handleChatEvent_guard extractText 9 state payload).
  right. split; [discriminate|].
  exists "new". repeat split; discriminate.
Defined.

(** The same first delta of a run, delivered at times 7 and 8. *)
Lemma handleChatEvent_delta_idempotent_witness :
  let extractText (v : option JS.value) :=
    match v with Some (JS.VStr s) => Some s | _ => None end in
  let state : @Chat.ChatState unit :=
    Chat.mkChatState None true "main" false [] None false "" (Some "r1")
      [Chat.mkStreamingMessage 1 "Found" 5] 0 None None in
  let payload :=
    Chat.Payload.mk "r1" "main" Chat.delta (Some 0) (Some (JS.VStr "Hello")) None None in
  let first := Chat.handleChatEvent extractText 7 state (Some payload) in
  Chat.chatStreamMessages (fst first)
  = [Chat.mkStreamingMessage 0 "Hello" 7; Chat.mkStreamingMessage 1 "Found" 5] /\
  Chat.chatStreamMessages (fst (Chat.handleChatEvent extractText 8 (fst first) (Some payload)))
  = Chat.chatStreamMessages (fst first).
Proof.
  intros extractText state payload first. split; [reflexivity|].
  apply (handleChatEvent_delta_idempotent extractText 7 8 state payload). reflexivity.
Defined.

(** ** Tool card pairer *)

Section Pairer.

Import GroupedRender.

Implicit Types (resultCards callCards paired pool : list ToolCard)
         (usedResults : gset nat).

(** *** The first loop splits the cards by kind, in order *)

Lemma collectToolCards_filter {Message : Type}
    (extractToolCards : Message -> list ToolCard) (messages : list Message) :
  collectToolCards extractToolCards messages =
    (List.filter is_call (flat_map extractToolCards messages),
     List.filter (fun c => negb (is_call c)) (flat_map extractToolCards messages)).
Proof.
  unfold collectToolCards.
  set (inner := fun (acc : list ToolCard * list ToolCard) card =>
                  if is_call card then (fst acc ++ [card], snd acc)
                  else (fst acc, snd acc ++ [card])).
  assert (Hinner : forall cards acc,
    foldl inner acc cards =
      (fst acc ++ List.filter is_call cards,
       snd acc ++ List.filter (fun c => negb (is_call c)) cards)).
  { induction cards as [|c cards IH]; intros [cs rs]; simpl.
    - by rewrite !app_nil_r.
    - rewrite IH. unfold inner. destruct (is_call c); simpl;
        by rewrite <- ?app_assoc. }
  assert (Houter : forall msgs acc,
    foldl (fun acc message => foldl inner acc (extractToolCards message)) acc msgs =
      (fst acc ++ List.filter is_call (flat_map extractToolCards msgs),
       snd acc ++ List.filter (fun c => negb (is_call c)) (flat_map extractToolCards msgs))).
  { induction msgs as [|m msgs IH]; intros [cs rs]; simpl.
    - by rewrite !app_nil_r.
    - rewrite IH, Hinner. simpl. by rewrite !List.filter_app, !app_assoc. }
  apply Houter.
Qed.

(** *** The index set and the pool of unconsumed results *)

Lemma orphans_from_below i j resultCards usedResults :
  (j < i)%nat ->
  orphans_from i resultCards ({[j]} ∪ usedResults)
  = orphans_from i resultCards usedResults.
Proof.
  revert i. induction resultCards as [|r rest IH]; intros i Hj; simpl; [reflexivity|].
  rewrite (IH (S i)) by lia.
  destruct (decide (i ∈ usedResults)) as [Hi|Hi].
  - rewrite !bool_decide_eq_true_2; [reflexivity | done | set_solver].
  - rewrite !bool_decide_eq_false_2; [reflexivity | done |].
    intros [Hij%elem_of_singleton|?]%elem_of_union; [lia | done].
Qed.

Lemma orphans_from_empty i resultCards : orphans_from i resultCards ∅ = resultCards.
Proof.
  revert i. induction resultCards as [|r rest IH]; intros i; simpl; [reflexivity|].
  by rewrite bool_decide_eq_false_2, IH by set_solver.
Qed.

Lemma orphans_from_keeps i0 resultCards usedResults i r :
  resultCards !! i = Some r -> (i0 + i)%nat ∉ usedResults ->
  In r (orphans_from i0 resultCards usedResults).
Proof.
  revert i0 i. induction resultCards as [|x rest IH]; intros i0 i; [done|].
  destruct i as [|i]; simpl.
  - intros [= ->] Hi. rewrite Nat.add_0_r in Hi.
    rewrite bool_decide_eq_false_2 by done. by left.
  - intros Hr Hi. assert (In r (orphans_from (S i0) rest usedResults)) as Hin.
    { apply (IH (S i0) i Hr). by replace (S i0 + i)%nat with (i0 + S i)%nat by lia. }
    destruct (bool_decide (i0 ∈ usedResults)); [done | by right].
Qed.

(** A search that skips the used indices finds what a search of the pool
    finds, and using the found index removes the found card from the pool. *)
Lemma findIndex_take_first (p : ToolCard -> bool) resultCards usedResults i0 :
  match JS.findIndex_from
          (fun r i => negb (bool_decide (i ∈ usedResults)) && p r) resultCards i0 with
  | None => take_first p (orphans_from i0 resultCards usedResults) = None
  | Some j =>
      exists r, (i0 <= j)%nat /\ resultCards !! (j - i0)%nat = Some r /\
        take_first p (orphans_from i0 resultCards usedResults)
        = Some (r, orphans_from i0 resultCards ({[j]} ∪ usedResults))
  end.
Proof.
  revert i0. induction resultCards as [|x rest IH]; intros i0; simpl; [reflexivity|].
  specialize (IH (S i0)).
  destruct (decide (i0 ∈ usedResults)) as [Hi|Hi].
  - rewrite (bool_decide_eq_true_2 _ Hi). simpl.
    destruct (JS.findIndex_from _ rest (S i0)) as [j|]; [|exact IH].
    destruct IH as (r & Hle & Hr & Htake). exists r.
    split; [lia|]. split.
    + by replace (j - i0)%nat with (S (j - S i0)) by lia.
    + rewrite bool_decide_eq_true_2 by set_solver. exact Htake.
  - rewrite (bool_decide_eq_false_2 _ Hi). simpl.
    destruct (p x) eqn:Hp.
    + exists x. split; [lia|]. split; [by rewrite Nat.sub_diag|].
      rewrite bool_decide_eq_true_2 by set_solver.
      by rewrite orphans_from_below by lia.
    + destruct (JS.findIndex_from _ rest (S i0)) as [j|]; [|by rewrite IH].
      destruct IH as (r & Hle & Hr & Htake). exists r.
      split; [lia|]. split.
      * by replace (j - i0)%nat with (S (j - S i0)) by lia.
      * rewrite Htake. rewrite bool_decide_eq_false_2; [reflexivity|].
        intros [Hij%elem_of_singleton|?]%elem_of_union; [lia | done].
Qed.

Lemma find_result_spec_match resultCards usedResults callCard :
  match find_result resultCards usedResults callCard with
  | None => spec_match callCard (orphans_from 0 resultCards usedResults) = None
  | Some j =>
      exists r, resultCards !! j = Some r /\
        spec_match callCard (orphans_from 0 resultCards usedResults)
        = Some (r, orphans_from 0 resultCards ({[j]} ∪ usedResults))
  end.
Proof.
  unfold find_result, spec_match, JS.findIndex.
  pose proof (findIndex_take_first (same_id callCard) resultCards usedResults 0) as Hid.
  pose proof (findIndex_take_first (same_name callCard) resultCards usedResults 0) as Hname.
  unfold same_id, same_name in *.
  set (byId := JS.findIndex_from
                 (fun r i => negb (bool_decide (i ∈ usedResults))
                             && bool_decide (id r = id callCard)) resultCards 0) in *.
  set (byName := JS.findIndex_from
                   (fun r i => negb (bool_decide (i ∈ usedResults))
                               && String.eqb (name r) (name callCard)) resultCards 0) in *.
  assert (Hfallback :
    match byName with
    | None => take_first (fun r => String.eqb (name r) (name callCard))
                (orphans_from 0 resultCards usedResults) = None
    | Some j => exists r, resultCards !! j = Some r /\
        take_first (fun r => String.eqb (name r) (name callCard))
          (orphans_from 0 resultCards usedResults)
        = Some (r, orphans_from 0 resultCards ({[j]} ∪ usedResults))
    end).
  { destruct byName as [j|]; [|exact Hname].
    destruct Hname as (r & _ & Hr & Htake). rewrite Nat.sub_0_r in Hr. eauto. }
  destruct (JS.truthy (id callCard)); [|exact Hfallback].
  destruct byId as [j|].
  - destruct Hid as (r & _ & Hr & Htake). rewrite Nat.sub_0_r in Hr.
    exists r. by rewrite Htake.
  - rewrite Hid. exact Hfallback.
Qed.

Lemma pair_calls_spec_pair resultCards callCards paired usedResults :
  exists merged usedResults',
    pair_calls resultCards callCards paired usedResults
    = Some (paired ++ merged, usedResults') /\
    Forall2 (pairs_with resultCards) callCards merged /\
    merged ++ orphans_from 0 resultCards usedResults'
    = spec_pair callCards (orphans_from 0 resultCards usedResults).
Proof.
  revert paired usedResults.
  induction callCards as [|callCard rest IH]; intros paired usedResults; simpl.
  - exists [], usedResults. rewrite app_nil_r. repeat split. constructor.
  - pose proof (find_result_spec_match resultCards usedResults callCard) as Hfind.
    destruct (find_result resultCards usedResults callCard) as [j|].
    + destruct Hfind as (r & Hr & Hmatch). rewrite Hr, Hmatch.
      destruct (IH (paired ++ [merge callCard r]) ({[j]} ∪ usedResults))
        as (merged & used' & Hrun & Hall & Hout).
      exists (merge callCard r :: merged), used'.
      rewrite Hrun, <- app_assoc. simpl. repeat split.
      * constructor; [|exact Hall]. right. exists r. split; [|reflexivity].
        apply list_elem_of_In, list_elem_of_lookup. eauto.
      * by rewrite Hout.
    + rewrite Hfind.
      destruct (IH (paired ++ [callCard]) usedResults)
        as (merged & used' & Hrun & Hall & Hout).
      exists (callCard :: merged), used'.
      rewrite Hrun, <- app_assoc. simpl. repeat split.
      * constructor; [by left | exact Hall].
      * by rewrite Hout.
Qed.

(** C5.  The pairer never fails, and its output is the pairing the
    specification words: each call, in order, takes the first result card
    still unconsumed that has its identifier (when the call has one), or
    else the first still unconsumed that has its name; a match gives one
    card with the call's kind, identifier and name and the result's text,
    and no match leaves the call as it is.  The output is one card per
    call followed by the result cards whose index was never used, so that
    each unconsumed result card is emitted standalone.  A call
    [{id: "a", name: "search"}] and a result [{id: "a", text: "5 results"}]
    give exactly one card, [{name: "search", text: "5 results"}]. *)
Theorem pairToolCards_spec callCards resultCards :
  pairToolCards callCards resultCards = Some (spec_pair callCards resultCards) /\
  (exists merged usedResults,
      pair_calls resultCards callCards [] ∅ = Some (merged, usedResults) /\
      pairToolCards callCards resultCards
      = Some (merged ++ orphans_from 0 resultCards usedResults) /\
      Forall2 (pairs_with resultCards) callCards merged /\
      (forall i r, resultCards !! i = Some r -> i ∉ usedResults ->
                   In r (orphans_from 0 resultCards usedResults))) /\
  (forall (Message : Type) (extractToolCards : Message -> list ToolCard) messages,
      let cards := flat_map extractToolCards messages in
      collectAndPairToolCards extractToolCards messages
      = Some (spec_pair (List.filter is_call cards)
                        (List.filter (fun c => negb (is_call c)) cards))) /\
  (forall resultName,
      pairToolCards [mkToolCard call (Some "a") "search" None]
                    [mkToolCard result (Some "a") resultName (Some "5 results")]
      = Some [mkToolCard call (Some "a") "search" (Some "5 results")]).
Proof.
  assert (Hspec : forall cs rs, pairToolCards cs rs = Some (spec_pair cs rs)).
  { intros cs rs. unfold pairToolCards.
    destruct (pair_calls_spec_pair rs cs [] ∅) as (merged & used & Hrun & _ & Hout).
    rewrite Hrun. simpl. by rewrite Hout, orphans_from_empty. }
  split; [apply Hspec|]. split; [|split].
  - destruct (pair_calls_spec_pair resultCards callCards [] ∅)
      as (merged & used & Hrun & Hall & Hout).
    exists merged, used. simpl in Hrun. repeat split; try done.
    + unfold pairToolCards. by rewrite Hrun.
    + intros i r Hr Hi. by apply (orphans_from_keeps 0 resultCards used i r).
  - intros Message extractToolCards messages cards.
    unfold collectAndPairToolCards. rewrite collectToolCards_filter. apply Hspec.
  - intros resultName. rewrite Hspec. reflexivity.
Qed.

End Pairer.

(** ** Event router *)

Ltac unfold_handler :=
  unfold Router.handle, Router.dispatch, Router.emitChatFinal, Router.emitChatDelta,
    Router.emitToolEvent, Router.registry_shift, Router.registry_remove,
    Router.broadcast, Router.nodeSendToSession, Router.clearAgentRunContext,
    Router.when, Router.bind, Router.ret, Router.get, Router.modify, Router.emit;
  cbn [Router.val Router.world Router.log].

(** Case analysis on a scrutinee that is not itself a case analysis. *)
Ltac case_inner :=
  match goal with
  | |- context [match ?x with _ => _ end] =>
      lazymatch x with
      | context [match _ with _ => _ end] => fail
      | _ => destruct x eqn:?
      end
  end.

Ltac all_cases :=
  repeat (case_inner; cbn [Router.val Router.world Router.log app fst snd]).

Lemma filter_none {A} (p : A -> bool) (l : list A) :
  Forall (fun x => p x = false) l -> List.filter p l = [].
Proof.
  induction 1 as [|x l Hx _ IH]; simpl; [reflexivity|]. by rewrite Hx.
Qed.

Section RouterSteps.

Import Registry Router.

Implicit Types (env : Env) (evt : AgentEventPayload) (w : World).

(** *** Writing the sequence counter *)

Lemma with_agentRunSeq_twice w run a b :
  with_agentRunSeq <[run := b]> (with_agentRunSeq <[run := a]> w)
  = with_agentRunSeq <[run := b]> w.
Proof. unfold with_agentRunSeq. simpl. by rewrite insert_insert_eq. Qed.

Lemma last_seq_set w run a : last_seq (with_agentRunSeq <[run := a]> w) run = a.
Proof. unfold last_seq, with_agentRunSeq. simpl. by rewrite lookup_insert_eq. Qed.

(** *** The handler, up to the session block *)

Lemma res_eta {A} (r : Res A) :
  match r with mkRes b w l => mkRes b w l end = r.
Proof. by destruct r. Qed.

Lemma handle_unfold env evt w :
  let sessionKey := sessionKey_of env w evt in
  let skip := skipDetailedToolBroadcast_of env w evt in
  let last := last_seq w (runId evt) in
  let w1 := seq_written evt w in
  let gapLog :=
    if Z.eqb (seq evt) (last + 1) then []
    else [mkEmission (if skip then w1 else w)
            (Broadcast "agent"
               (OfSeqGap (runId evt) "error" (now_gap env) sessionKey
                  (mkSeqGap "seq gap" (last + 1) (seq evt)))
               None)] in
  let agentLog :=
    if skip then []
    else [mkEmission w1 (Broadcast "agent" (agentPayload_of env w evt) None)] in
  let d := session_block env evt w w1 in
  handle env evt w =
    mkRes tt (world d)
      (gapLog ++ agentLog ++ log d ++
       (if val d && is_terminal evt
        then [mkEmission (world d) (ClearAgentRunContext (runId evt))] else [])).
Proof.
  cbn zeta. unfold handle, is_terminal, session_block, seq_written, agentPayload_of.
  unfold bind, get, when, modify, ret, broadcast, clearAgentRunContext, emit.
  cbn [val world log].
  destruct (skipDetailedToolBroadcast_of env w evt) eqn:Hskip;
    destruct (Z.eqb (seq evt) (last_seq w (runId evt) + 1));
    (destruct (sessionKey_of env w evt) as [sk|]; [destruct (JS.truthy_string sk)|]);
    cbn [val world log app negb JS.truthy]; rewrite ?with_agentRunSeq_twice.
  all: try match goal with
       | |- context [dispatch ?a ?b ?c ?d ?e ?f ?g ?h ?i ?j] =>
           destruct (dispatch a b c d e f g h i j) as [[] wd ld]
       end.
  all: cbn [val world log andb app];
    try destruct (is_terminal_phase (lifecyclePhase_of evt));
    cbn [val world log app]; rewrite ?app_nil_r; reflexivity.
Qed.

(** *** The session block *)

Lemma dispatch_agentRunSeq env evt chatLink sessionKey clientRunId isAborted skip
    agentPayload lifecyclePhase w1 :
  agentRunSeq (world (dispatch env evt chatLink sessionKey clientRunId isAborted skip
                        agentPayload lifecyclePhase w1))
  = agentRunSeq w1.
Proof. unfold_handler. all_cases; reflexivity. Qed.

Lemma dispatch_no_gap env evt chatLink sessionKey clientRunId isAborted skip
    agentPayload lifecyclePhase w1 :
  Forall (fun e => is_gap (call e) = false)
    (log (dispatch env evt chatLink sessionKey clientRunId isAborted skip
            agentPayload lifecyclePhase w1)).
Proof. unfold_handler. all_cases; repeat constructor. Qed.

Lemma dispatch_tagged env evt chatLink sessionKey clientRunId isAborted skip
    agentPayload lifecyclePhase w1 :
  Forall (fun e => tagged_as_designed (call e))
    (log (dispatch env evt chatLink sessionKey clientRunId isAborted skip
            agentPayload lifecyclePhase w1)).
Proof. unfold_handler. all_cases; repeat constructor. Qed.

Lemma block_agentRunSeq env evt w w1 :
  agentRunSeq (world (session_block env evt w w1)) = agentRunSeq w1.
Proof.
  unfold session_block. repeat case_inner; try reflexivity. apply dispatch_agentRunSeq.
Qed.

Lemma block_no_gap env evt w w1 :
  Forall (fun e => is_gap (call e) = false) (log (session_block env evt w w1)).
Proof.
  unfold session_block. repeat case_inner; try constructor. apply dispatch_no_gap.
Qed.

Lemma block_tagged env evt w w1 :
  Forall (fun e => tagged_as_designed (call e)) (log (session_block env evt w w1)).
Proof.
  unfold session_block. repeat case_inner; try constructor. apply dispatch_tagged.
Qed.

Lemma handle_sets_seq env evt w :
  agentRunSeq (world (handle env evt w)) !! runId evt = Some (seq evt).
Proof.
  rewrite handle_unfold. cbn [world]. rewrite block_agentRunSeq.
  apply lookup_insert_eq.
Qed.

Lemma handle_seq_other env evt w r :
  runId evt <> r ->
  agentRunSeq (world (handle env evt w)) !! r = agentRunSeq w !! r.
Proof.
  intros Hne. rewrite handle_unfold. cbn [world]. rewrite block_agentRunSeq.
  by apply lookup_insert_ne.
Qed.

Lemma handle_in_order_no_gap env evt w :
  seq evt = last_seq w (runId evt) + 1 ->
  Forall (fun e => is_gap (call e) = false) (log (handle env evt w)).
Proof.
  intros Hseq. rewrite handle_unfold. cbn [log].
  rewrite <- Hseq, Z.eqb_refl. cbn [app]. rewrite !Forall_app.
  split; [|split]; [| apply block_no_gap |];
    unfold agentPayload_of; repeat case_inner; repeat constructor.
Qed.

Lemma handle_tagged env evt w :
  Forall (fun e => tagged_as_designed (call e)) (log (handle env evt w)).
Proof.
  rewrite handle_unfold. cbn [log]. rewrite !Forall_app.
  split; [|split; [|split]]; [| | apply block_tagged |];
    unfold agentPayload_of; repeat case_inner; repeat constructor.
Qed.

(** With a gap, the handler's result is the in-order result with the
    diagnostic put in front of the log. *)
Lemma handle_gap_split env evt w :
  seq evt <> last_seq w (runId evt) + 1 ->
  let inOrder := handle env evt (with_agentRunSeq <[runId evt := seq evt - 1]> w) in
  exists d,
    call d = Broadcast "agent"
               (OfSeqGap (runId evt) "error" (now_gap env) (sessionKey_of env w evt)
                    (mkSeqGap "seq gap" (last_seq w (runId evt) + 1) (seq evt))) None /\
    handle env evt w = mkRes (val inOrder) (world inOrder) (d :: log inOrder).
Proof.
  intros Hgap. cbn zeta.
  set (w' := with_agentRunSeq <[runId evt := seq evt - 1]> w).
  rewrite !handle_unfold. cbn [val world log].
  assert (Hw1 : seq_written evt w' = seq_written evt w)
    by apply with_agentRunSeq_twice.
  rewrite Hw1.
  change (session_block env evt w' (seq_written evt w))
    with (session_block env evt w (seq_written evt w)).
  change (skipDetailedToolBroadcast_of env w' evt)
    with (skipDetailedToolBroadcast_of env w evt).
  change (agentPayload_of env w' evt) with (agentPayload_of env w evt).
  subst w'. rewrite last_seq_set.
  replace (seq evt - 1 + 1) with (seq evt) by lia. rewrite Z.eqb_refl.
  apply Z.eqb_neq in Hgap. rewrite Hgap. cbn [app].
  eexists. split; [|reflexivity]. reflexivity.
Qed.

(** C2.  The handler always leaves the received [seq] in the counter of
    the run.  When the received [seq] is not the last recorded one plus
    one (the last being 0 when none was recorded), it broadcasts, on the
    general channel, one diagnostic with reason "seq gap", the expected
    and the received number.  The event is not dropped: what follows the
    diagnostic, and the stores afterwards, are what the handler produces
    for the same event when it arrives in order, and that contains no
    diagnostic. *)
Theorem seq_gap_reported env evt w :
  let gap := handle env evt w in
  let inOrder :=
    handle env evt (with_agentRunSeq <[runId evt := seq evt - 1]> w) in
  agentRunSeq (world gap) !! runId evt = Some (seq evt) /\
  (seq evt <> last_seq w (runId evt) + 1 ->
   (exists d,
       log gap = d :: log inOrder /\
       call d = Broadcast "agent"
                  (OfSeqGap (runId evt) "error" (now_gap env) (sessionKey_of env w evt)
                     (mkSeqGap "seq gap" (last_seq w (runId evt) + 1) (seq evt)))
                  None) /\
   Forall (fun e => is_gap (call e) = false) (log inOrder) /\
   length (List.filter (fun e => is_gap (call e)) (log gap)) = 1%nat /\
   world gap = world inOrder).
Proof.
  intros gap inOrder. split; [apply handle_sets_seq|]. intros Hgap.
  assert (Hnogap : Forall (fun e => is_gap (call e) = false) (log inOrder)).
  { apply handle_in_order_no_gap. rewrite last_seq_set. lia. }
  destruct (handle_gap_split env evt w Hgap) as (d & Hcall & Hsplit).
  fold inOrder in Hsplit. fold gap in Hsplit.
  split; [|split; [exact Hnogap|split]].
  - exists d. by rewrite Hsplit.
  - rewrite Hsplit. simpl. rewrite Hcall. simpl.
    by rewrite (filter_none (fun e => is_gap (call e))).
  - by rewrite Hsplit.
Qed.

(** *** Sequences of events *)

Lemma run_cons env evt tr w :
  world (run ((env, evt) :: tr) w) = world (run tr (world (handle env evt w))) /\
  log (run ((env, evt) :: tr) w)
  = log (handle env evt w) ++ log (run tr (world (handle env evt w))).
Proof.
  cbn [run]. unfold bind.
  destruct (handle env evt w) as [[] w1 l1]. cbn [world log].
  destruct (run tr w1) as [[] w2 l2]. by cbn.
Qed.

Lemma run_tagged tr w :
  Forall (fun e => tagged_as_designed (call e)) (log (run tr w)).
Proof.
  revert w. induction tr as [|[env evt] tr IH]; intros w.
  - constructor.
  - rewrite (proj2 (run_cons env evt tr w)). apply Forall_app.
    split; [apply handle_tagged | apply IH].
Qed.

(** C8.  In everything the router broadcasts, over any sequence of
    events, the option [dropIfSlow] is set exactly on the broadcasts that
    carry a delta: [emitChatDelta] broadcasts with [{ dropIfSlow: true }],
    and [emitToolEvent] (tool-start, tool-end) and [emitChatFinal] (final,
    error) broadcast without options. *)
Theorem droppable_exactly_deltas :
  (forall tr w, Forall (fun e => tagged_as_designed (call e)) (log (run tr w))) /\
  (forall now sk c s text w,
      map call (log (emitChatDelta now sk c s text w)) =
        [Broadcast "chat" (OfChat (ChatDelta c sk s (index_of w c) text now))
           (Some {| dropIfSlow := Some true |});
         NodeSendToSession sk "chat"
           (OfChat (ChatDelta c sk s (index_of w c) text now))]) /\
  (forall sk c s phase toolName w,
      map call (log (emitToolEvent sk c s phase toolName w)) =
        [Broadcast "chat" (OfChat (ChatTool c sk s phase toolName)) None;
         NodeSendToSession sk "chat" (OfChat (ChatTool c sk s phase toolName))]) /\
  (forall fmt sk c s jobState err w,
      exists p,
        map call (log (emitChatFinal fmt sk c s jobState err w)) =
          [Broadcast "chat" (OfChat p) None; NodeSendToSession sk "chat" (OfChat p)] /\
        match jobState with
        | JobDone => p = ChatFinal c sk s
        | JobError => exists errorMessage, p = ChatError c sk s errorMessage
        end).
Proof.
  split; [exact run_tagged|]. split; [|split].
  - intros. unfold_handler. all_cases; reflexivity.
  - intros. unfold_handler. destruct phase; all_cases; reflexivity.
  - intros. unfold_handler. destruct jobState; cbn [val world log app];
      eexists; (split; [reflexivity|]); eauto.
Qed.

(** *** Sequence numbers along a trace *)

Lemma gaps_for_app r l1 l2 : gaps_for r (l1 ++ l2) = gaps_for r l1 ++ gaps_for r l2.
Proof. unfold gaps_for. by rewrite map_app, List.filter_app. Qed.

Lemma gaps_for_none r l :
  Forall (fun e => is_gap_for r (call e) = false) l -> gaps_for r l = [].
Proof.
  intros H. unfold gaps_for. apply filter_none.
  induction H; simpl; constructor; auto.
Qed.

Lemma handle_gap_other_run env evt w r :
  runId evt <> r ->
  Forall (fun e => is_gap_for r (call e) = false) (log (handle env evt w)).
Proof.
  intros Hne. rewrite handle_unfold. cbn [log]. rewrite !Forall_app.
  assert (Hr : String.eqb (runId evt) r = false) by by apply String.eqb_neq.
  split; [|split; [|split]].
  - case_inner; repeat constructor. cbn. by rewrite Hr.
  - unfold agentPayload_of. repeat case_inner; repeat constructor.
  - eapply Forall_impl; [apply block_no_gap|]. intros e He. cbn in *.
    destruct (call e) as [? [] ?| |]; try done.
  - case_inner; repeat constructor.
Qed.

Lemma run_consecutive_no_gap r tr w :
  consecutive_after (last_seq w r) (seqs_of r tr) = true ->
  gaps_for r (log (run tr w)) = [].
Proof.
  revert w. induction tr as [|[env evt] tr IH]; intros w Hcons; [reflexivity|].
  rewrite (proj2 (run_cons env evt tr w)), gaps_for_app.
  unfold seqs_of in Hcons. cbn [List.filter snd] in Hcons.
  destruct (String.eqb_spec (runId evt) r) as [Hr|Hr].
  - cbn [map consecutive_after snd] in Hcons.
    apply andb_true_iff in Hcons as [Hseq Hcons]. apply Z.eqb_eq in Hseq.
    rewrite IH, app_nil_r.
    + apply gaps_for_none. subst r.
      eapply Forall_impl; [by apply handle_in_order_no_gap|].
      intros e He. cbn in *. destruct (call e) as [? [] ?| |]; try done.
    + unfold last_seq at 1. subst r. rewrite handle_sets_seq. exact Hcons.
  - rewrite IH, app_nil_r.
    + apply gaps_for_none. by apply handle_gap_other_run.
    + unfold last_seq at 1. rewrite handle_seq_other by done. exact Hcons.
Qed.

(** C7, as it holds.  When the events of a run arrive with [seq] 1, 2, 3,
    ..., each one more than the one before and the first one 1, among
    events of other runs in any order, no sequence gap diagnostic is
    emitted for that run. *)
Theorem consecutive_seq_no_gap r tr w :
  last_seq w r = 0 ->
  consecutive_after 0 (seqs_of r tr) = true ->
  gaps_for r (log (run tr w)) = [].
Proof.
  intros Hfresh Hcons. apply run_consecutive_no_gap. by rewrite Hfresh.
Qed.

(** *** Registry facts used by the handler *)

Lemma shift_peek sid (m : Registry.t) :
  fst (Registry.shift sid m) = Registry.peek sid m.
Proof. unfold shift, peek. destruct (m !! sid) as [[|e q]|]; reflexivity. Qed.

Lemma shift_no_link sid (m : Registry.t) :
  Registry.peek sid m = None -> snd (Registry.shift sid m) = m.
Proof. unfold shift, peek. destruct (m !! sid) as [[|e q]|]; [done| discriminate | done]. Qed.

Lemma remove_head sid (m : Registry.t) l :
  Registry.peek sid m = Some l ->
  JS.truthy_string (sessionKey l) = true ->
  Registry.remove sid (clientRunId l) (Some (sessionKey l)) m = Registry.shift sid m.
Proof.
  unfold peek, remove, shift. intros Hpeek Hsk.
  destruct (m !! sid) as [[|e q]|]; try discriminate.
  simpl in Hpeek. injection Hpeek as ->.
  unfold JS.findIndex. cbn [JS.findIndex_from]. unfold matches.
  by rewrite Hsk, !String.eqb_refl.
Qed.

(** *** What kind of event an event is *)

Lemma terminal_not_delta b evt : is_terminal evt = true -> delta_text b evt = None.
Proof.
  unfold is_terminal, lifecyclePhase_of, delta_text.
  destruct (String.eqb_spec (stream evt) "lifecycle") as [->|]; [|discriminate].
  intros _. by rewrite andb_false_r.
Qed.

Lemma terminal_not_tool b evt : is_terminal evt = true -> tool_marker b evt = None.
Proof.
  unfold is_terminal, lifecyclePhase_of, tool_marker.
  destruct (String.eqb_spec (stream evt) "lifecycle") as [->|]; [|discriminate].
  intros _. by rewrite andb_false_r.
Qed.

Lemma has_false {V} (m : gmap string V) k : has m k = false <-> m !! k = None.
Proof. unfold has. destruct (m !! k); split; congruence. Qed.

(** *** The handler seen through the session block *)

Lemma chat_calls_app l1 l2 : chat_calls (l1 ++ l2) = chat_calls l1 ++ chat_calls l2.
Proof. apply List.filter_app. Qed.

Lemma handle_chat_calls env evt w :
  chat_calls (log (handle env evt w))
  = chat_calls (log (session_block env evt w (seq_written evt w))).
Proof.
  rewrite handle_unfold. cbn [log]. rewrite !chat_calls_app.
  replace (chat_calls (if Z.eqb _ _ then _ else _)) with (@nil Emission)
    by (case_inner; reflexivity).
  replace (chat_calls (if skipDetailedToolBroadcast_of env w evt then _ else _))
    with (@nil Emission) by (case_inner; reflexivity).
  replace (chat_calls (if _ && is_terminal evt then _ else _)) with (@nil Emission)
    by (case_inner; reflexivity).
  by rewrite app_nil_r.
Qed.

Lemma handle_chatRunState env evt w :
  chatRunState (world (handle env evt w))
  = chatRunState (world (session_block env evt w (seq_written evt w))).
Proof. by rewrite handle_unfold. Qed.

(** The block of an aborted run. *)
Lemma block_aborted env evt w :
  isAborted_of w evt = true ->
  let b := session_block env evt w (seq_written evt w) in
  let c := clientRunId_of w evt in
  chat_calls (log b) = [] /\
  (is_terminal evt = false -> chatRunState (world b) = chatRunState w) /\
  (is_terminal evt = true -> JS.truthy (sessionKey_of env w evt) = true ->
   abortedRuns (chatRunState (world b))
   = delete (runId evt) (delete c (abortedRuns (chatRunState w))) /\
   messageIndexByRun (chatRunState (world b))
   = delete c (messageIndexByRun (chatRunState w)) /\
   registry (chatRunState (world b))
   = snd (Registry.shift (runId evt) (registry (chatRunState w)))).
Proof.
  intros Hab. cbn zeta. unfold session_block, is_terminal. rewrite Hab.
  pose proof (remove_head (runId evt) (registry (chatRunState w))) as Hremove.
  pose proof (shift_no_link (runId evt) (registry (chatRunState w))) as Hnolink.
  unfold clientRunId_of, sessionKey_of in *. unfold chatLink_of in *.
  destruct (Registry.peek (runId evt) (registry (chatRunState w))) as [l|] eqn:Hlink.
  - specialize (Hremove l eq_refl). cbn [JS.truthy].
    destruct (JS.truthy_string (sessionKey l)) eqn:Hsk; [|by repeat split].
    specialize (Hremove eq_refl).
    unfold dispatch, delta_text, tool_marker. cbn [negb andb].
    unfold_handler. unfold seq_written. cbn [chatRunState with_agentRunSeq registry].
    destruct (is_terminal_phase (lifecyclePhase_of evt));
      destruct (skipDetailedToolBroadcast_of env w evt);
      cbn [val world log app negb]; cbn; rewrite ?Hremove; repeat split; try done.
  - destruct (resolveSessionKeyForRun env (runId evt)) as [sk|]; [|by repeat split].
    cbn [JS.truthy]. destruct (JS.truthy_string sk) eqn:Hsk; [|by repeat split].
    unfold dispatch, delta_text, tool_marker. cbn [negb andb].
    unfold_handler. unfold seq_written.
    destruct (is_terminal_phase (lifecyclePhase_of evt));
      destruct (skipDetailedToolBroadcast_of env w evt);
      cbn [val world log app negb]; cbn; rewrite ?Hnolink; by repeat split.
Qed.

(** C3, as it holds.  For an event of a run that is marked aborted, under
    the client run id or under the internal run id, the handler makes no
    call on the chat channel.  A delta or tool event leaves the run state
    as it is.  A terminal lifecycle event whose session key resolves
    deletes the abort marker under both ids and the message index entry
    under the client run id, and takes the run's link, if there is one,
    out of the registry. *)
Theorem aborted_run_cleanup_only env evt w :
  isAborted_of w evt = true ->
  let r := handle env evt w in
  let c := clientRunId_of w evt in
  chat_calls (log r) = [] /\
  (is_terminal evt = false -> chatRunState (world r) = chatRunState w) /\
  (is_terminal evt = true -> JS.truthy (sessionKey_of env w evt) = true ->
   abortedRuns (chatRunState (world r)) !! c = None /\
   abortedRuns (chatRunState (world r)) !! runId evt = None /\
   messageIndexByRun (chatRunState (world r)) !! c = None /\
   abortedRuns (chatRunState (world r))
   = delete (runId evt) (delete c (abortedRuns (chatRunState w))) /\
   messageIndexByRun (chatRunState (world r))
   = delete c (messageIndexByRun (chatRunState w)) /\
   registry (chatRunState (world r))
   = snd (Registry.shift (runId evt) (registry (chatRunState w))) /\
   (forall l, chatLink_of w evt = Some l ->
              fst (Registry.shift (runId evt) (registry (chatRunState w))) = Some l)).
Proof.
  intros Hab r c. subst r.
  rewrite handle_chat_calls, handle_chatRunState.
  destruct (block_aborted env evt w Hab) as (Hcalls & Hkeep & Hclean).
  split; [exact Hcalls|]. split; [exact Hkeep|].
  intros Hterm Hsk. destruct (Hclean Hterm Hsk) as (Ha & Hi & Hr).
  rewrite Ha, Hi, Hr. repeat split.
  - destruct (decide (runId evt = c)) as [->|Hne].
    + apply lookup_delete_eq.
    + rewrite lookup_delete_ne by done. apply lookup_delete_eq.
  - apply lookup_delete_eq.
  - apply lookup_delete_eq.
  - intros l Hl. by rewrite shift_peek.
Qed.

(** The block of a run that is not aborted, at its terminal event. *)
Lemma block_terminal_live env evt w sk :
  sessionKey_of env w evt = Some sk ->
  JS.truthy_string sk = true ->
  isAborted_of w evt = false ->
  is_terminal evt = true ->
  let b := session_block env evt w (seq_written evt w) in
  let c := clientRunId_of w evt in
  (exists p,
      map call (chat_calls (log b)) =
        [Broadcast "chat" (OfChat p) None; NodeSendToSession sk "chat" (OfChat p)] /\
      (p = ChatFinal c sk (seq evt) \/
       exists errorMessage, p = ChatError c sk (seq evt) errorMessage)) /\
  messageIndexByRun (chatRunState (world b))
  = delete c (messageIndexByRun (chatRunState w)) /\
  abortedRuns (chatRunState (world b)) = abortedRuns (chatRunState w) /\
  registry (chatRunState (world b))
  = snd (Registry.shift (runId evt) (registry (chatRunState w))).
Proof.
  intros Hs Hsk Hab Hterm. cbn zeta. unfold session_block.
  rewrite Hs, Hsk, Hab. unfold dispatch.
  rewrite (terminal_not_delta _ _ Hterm), (terminal_not_tool _ _ Hterm).
  change (is_terminal_phase (lifecyclePhase_of evt)) with (is_terminal evt).
  rewrite Hterm. cbn [negb andb].
  pose proof (shift_peek (runId evt) (registry (chatRunState w))) as Hshift.
  pose proof (shift_no_link (runId evt) (registry (chatRunState w))) as Hnolink.
  unfold clientRunId_of, sessionKey_of in *. unfold chatLink_of in *.
  destruct (Registry.peek (runId evt) (registry (chatRunState w))) as [l|] eqn:Hlink.
  - injection Hs as <-.
    unfold_handler. unfold seq_written. cbn [chatRunState with_agentRunSeq registry].
    destruct (skipDetailedToolBroadcast_of env w evt);
      cbn [val world log app negb chatRunState with_agentRunSeq registry];
      rewrite Hshift;
      destruct (jobState_of (lifecyclePhase_of evt));
      cbn [val world log app negb]; cbn; repeat split; eauto.
  - unfold_handler. unfold seq_written.
    destruct (skipDetailedToolBroadcast_of env w evt);
      destruct (jobState_of (lifecyclePhase_of evt));
      cbn [val world log app negb]; cbn; rewrite ?Hnolink by done;
      repeat split; eauto.
Qed.

(** C4, as it holds.  A terminal lifecycle event whose session key
    resolves makes the handler either emit the final or error notification
    (run not aborted) or do the aborted-run cleanup (run aborted), and
    nothing else; in both cases no entry is left for the client run id in
    the message index map or in the aborted runs map. *)
Theorem terminal_leaves_no_entries env evt w :
  is_terminal evt = true ->
  JS.truthy (sessionKey_of env w evt) = true ->
  let r := handle env evt w in
  let c := clientRunId_of w evt in
  messageIndexByRun (chatRunState (world r)) !! c = None /\
  abortedRuns (chatRunState (world r)) !! c = None /\
  (isAborted_of w evt = false ->
   exists sk p,
     sessionKey_of env w evt = Some sk /\
     map call (chat_calls (log r)) =
       [Broadcast "chat" (OfChat p) None; NodeSendToSession sk "chat" (OfChat p)] /\
     (p = ChatFinal c sk (seq evt) \/
      exists errorMessage, p = ChatError c sk (seq evt) errorMessage)) /\
  (isAborted_of w evt = true -> chat_calls (log r) = []).
Proof.
  intros Hterm Hsk r c. subst r.
  rewrite handle_chat_calls, handle_chatRunState.
  destruct (isAborted_of w evt) eqn:Hab.
  - destruct (block_aborted env evt w Hab) as (Hcalls & _ & Hclean).
    destruct (Hclean Hterm Hsk) as (Ha & Hi & _). rewrite Ha, Hi.
    split; [apply lookup_delete_eq|]. split; [|split; [discriminate | done]].
    destruct (decide (runId evt = c)) as [->|Hne].
    + apply lookup_delete_eq.
    + rewrite lookup_delete_ne by done. apply lookup_delete_eq.
  - destruct (sessionKey_of env w evt) as [sk|] eqn:Hs; [|discriminate].
    destruct (block_terminal_live env evt w sk Hs Hsk Hab Hterm)
      as ((p & Hcalls & Hp) & Hi & Ha & _).
    rewrite Hi, Ha. split; [apply lookup_delete_eq|]. split; [|split; [|discriminate]].
    + unfold isAborted_of in Hab. apply orb_false_iff in Hab as [Hab _].
      by apply has_false.
    + intros _. exists sk, p. by repeat split.
Qed.

(** *** The message index of a run along its events *)

Lemma index_of_insert w c v :
  index_of (with_messageIndexByRun <[c := v]> w) c = v.
Proof. unfold index_of, with_messageIndexByRun. cbn. by rewrite lookup_insert_eq. Qed.

(** An event of another run leaves the entry of [c] alone. *)
Lemma block_other_run env evt w c :
  clientRunId_of w evt <> c ->
  messageIndexByRun (chatRunState (world (session_block env evt w (seq_written evt w)))) !! c
  = messageIndexByRun (chatRunState w) !! c.
Proof.
  intros Hne. unfold session_block.
  pose proof (shift_peek (runId evt) (registry (chatRunState w))) as Hshift.
  unfold clientRunId_of, sessionKey_of in *. unfold chatLink_of in *.
  destruct (Registry.peek (runId evt) (registry (chatRunState w))) as [l|] eqn:Hlink.
  - destruct (JS.truthy_string (sessionKey l)); [|reflexivity].
    unfold_handler. unfold seq_written.
    destruct (skipDetailedToolBroadcast_of env w evt);
      cbn [val world log app negb chatRunState with_agentRunSeq registry];
      all_cases; cbn in *;
      try match goal with
          | H : fst (Registry.shift _ _) = _ |- _ => rewrite Hshift in H; simplify_eq
          end;
      rewrite ?lookup_insert_ne, ?lookup_delete_ne by done; reflexivity.
  - destruct (resolveSessionKeyForRun env (runId evt)) as [sk|]; [|reflexivity].
    destruct (JS.truthy_string sk); [|reflexivity].
    unfold_handler. unfold seq_written.
    destruct (skipDetailedToolBroadcast_of env w evt);
      cbn [val world log app negb chatRunState with_agentRunSeq registry];
      all_cases; cbn;
      rewrite ?lookup_insert_ne, ?lookup_delete_ne by done; reflexivity.
Qed.

(** The block of a run in progress: a delta. *)
Lemma block_delta env evt w sk text :
  sessionKey_of env w evt = Some sk ->
  JS.truthy_string sk = true ->
  isAborted_of w evt = false ->
  delta_text false evt = Some text ->
  let b := session_block env evt w (seq_written evt w) in
  let c := clientRunId_of w evt in
  let p := OfChat (ChatDelta c sk (seq evt) (index_of w c) text (now_delta env)) in
  map call (chat_calls (log b)) =
    [Broadcast "chat" p (Some {| dropIfSlow := Some true |});
     NodeSendToSession sk "chat" p] /\
  index_of (world b) c = index_of w c.
Proof.
  intros Hs Hsk Hab Hdelta. cbn zeta. unfold session_block.
  rewrite Hs, Hsk, Hab. unfold dispatch. rewrite Hdelta.
  unfold_handler. unfold seq_written, has, index_of.
  destruct (skipDetailedToolBroadcast_of env w evt);
    cbn [val world log app negb]; cbn;
    (destruct (messageIndexByRun (chatRunState w) !! clientRunId_of w evt) as [i|] eqn:Hi;
     cbn; rewrite ?lookup_insert_eq, ?Hi; by split).
Qed.

(** The block of a run in progress: a tool marker. *)
Lemma block_tool env evt w sk toolPhase toolName :
  sessionKey_of env w evt = Some sk ->
  JS.truthy_string sk = true ->
  isAborted_of w evt = false ->
  delta_text false evt = None ->
  tool_marker false evt = Some (toolPhase, toolName) ->
  let b := session_block env evt w (seq_written evt w) in
  let c := clientRunId_of w evt in
  if String.eqb toolPhase "start" then
    map call (chat_calls (log b)) =
      [Broadcast "chat" (OfChat (ChatTool c sk (seq evt) PhaseStart toolName)) None;
       NodeSendToSession sk "chat" (OfChat (ChatTool c sk (seq evt) PhaseStart toolName))] /\
    Forall (fun e => index_of (seen e) c = index_of w c + 1) (chat_calls (log b)) /\
    index_of (world b) c = index_of w c + 1
  else index_of (world b) c = index_of w c.
Proof.
  intros Hs Hsk Hab Hdelta Htool. cbn zeta. unfold session_block.
  rewrite Hs, Hsk, Hab. unfold dispatch. rewrite Hdelta, Htool.
  unfold_handler. unfold seq_written, index_of.
  destruct (String.eqb toolPhase "start");
    [|destruct (String.eqb toolPhase "result")];
    destruct (skipDetailedToolBroadcast_of env w evt);
    cbn [val world log app negb]; cbn; rewrite ?lookup_insert_eq; try reflexivity.
  all: split; [reflexivity|]; split; [|reflexivity].
  all: repeat constructor; cbn; by rewrite lookup_insert_eq.
Qed.

(** The block of a run in progress: any other event that does not end it. *)
Lemma block_idle env evt w sk :
  sessionKey_of env w evt = Some sk ->
  JS.truthy_string sk = true ->
  isAborted_of w evt = false ->
  delta_text false evt = None ->
  tool_marker false evt = None ->
  is_terminal evt = false ->
  chatRunState (world (session_block env evt w (seq_written evt w))) = chatRunState w.
Proof.
  intros Hs Hsk Hab Hdelta Htool Hterm. unfold session_block.
  rewrite Hs, Hsk, Hab. unfold dispatch. rewrite Hdelta, Htool.
  change (is_terminal_phase (lifecyclePhase_of evt)) with (is_terminal evt).
  rewrite Hterm. unfold_handler. 
  destruct (skipDetailedToolBroadcast_of env w evt); reflexivity.
Qed.

Lemma delta_not_tool_start evt text :
  delta_text false evt = Some text -> is_tool_start evt = false.
Proof.
  unfold delta_text, is_tool_start, tool_marker. cbn [negb andb].
  destruct (String.eqb_spec (stream evt) "assistant") as [->|]; [|discriminate].
  reflexivity.
Qed.

Lemma index_of_chatRunState w w' c :
  chatRunState w' = chatRunState w -> index_of w' c = index_of w c.
Proof. unfold index_of. by intros ->. Qed.

(** One event of a trace in which the run [c] is in progress. *)
Lemma live_step c env evt w :
  live c (w, env, evt) = true ->
  index_of (world (handle env evt w)) c
  = index_of w c + (if tool_start_for c (w, env, evt) then 1 else 0).
Proof.
  unfold live, tool_start_for, for_run. cbn [fst snd].
  set (b := session_block env evt w (seq_written evt w)).
  assert (Hb : index_of (world (handle env evt w)) c = index_of (world b) c).
  { apply index_of_chatRunState, handle_chatRunState. }
  rewrite Hb. clear Hb.
  destruct (String.eqb_spec (clientRunId_of w evt) c) as [Hc|Hc]; cbn [andb].
  2:{ intros _. unfold index_of. subst b. rewrite block_other_run by done. lia. }
  intros Hlive. apply andb_true_iff in Hlive as [Hlive Hterm].
  apply andb_true_iff in Hlive as [Hsk Hab].
  apply negb_true_iff in Hterm, Hab.
  destruct (sessionKey_of env w evt) as [sk|] eqn:Hs; [|discriminate].
  cbn [JS.truthy] in Hsk. subst c.
  destruct (delta_text false evt) as [text|] eqn:Hdelta.
  { rewrite (delta_not_tool_start _ _ Hdelta).
    destruct (block_delta env evt w sk text Hs Hsk Hab Hdelta) as [_ Hi].
    subst b. rewrite Hi. lia. }
  destruct (tool_marker false evt) as [[toolPhase toolName]|] eqn:Htool.
  - pose proof (block_tool env evt w sk toolPhase toolName Hs Hsk Hab Hdelta Htool) as H.
    cbn zeta in H. unfold is_tool_start. rewrite Htool.
    destruct (String.eqb toolPhase "start").
    + destruct H as (_ & _ & Hi). subst b. rewrite Hi. lia.
    + subst b. rewrite H. lia.
  - unfold is_tool_start. rewrite Htool.
    rewrite (index_of_chatRunState w (world b)); [lia|].
    by apply (block_idle env evt w sk).
Qed.

Lemma run_index c tr w :
  forallb (live c) (history w tr) = true ->
  index_of (world (run tr w)) c
  = index_of w c + Z.of_nat (length (List.filter (tool_start_for c) (history w tr))).
Proof.
  revert w. induction tr as [|[env evt] tr IH]; intros w; cbn [history forallb].
  - intros _. cbn. lia.
  - intros [Hlive Hrest]%andb_true_iff.
    rewrite (proj1 (run_cons env evt tr w)), (IH _ Hrest), (live_step _ _ _ _ Hlive).
    cbn [List.filter]. destruct (tool_start_for c (w, env, evt)); cbn [length]; lia.
Qed.

(** C1.  Take a client run [c] whose message index is 0, and any sequence
    of events during which the run is in progress: each event that
    belongs to it has a session key that resolves, is not aborted and does
    not end the run.  Let N be the number of tool markers with phase
    "start" among the events of the run.  Then, for the next event of the
    run,
    - if it is a delta, the delta notification broadcast and sent for it
      carries [messageIndex = N], and processing it changes the index of
      no run;
    - if it is a tool start, the tool-start notification is emitted from
      stores in which the index of the run is already N + 1. *)
Theorem delta_carries_tool_start_count c w0 tr env evt :
  index_of w0 c = 0 ->
  forallb (live c) (history w0 tr) = true ->
  let w := world (run tr w0) in
  let N := Z.of_nat (length (List.filter (tool_start_for c) (history w0 tr))) in
  for_run c (w, env, evt) = true ->
  live c (w, env, evt) = true ->
  (forall text,
      delta_text false evt = Some text ->
      exists sk,
        sessionKey_of env w evt = Some sk /\
        map call (chat_calls (log (handle env evt w))) =
          [Broadcast "chat"
             (OfChat (ChatDelta c sk (seq evt) N text (now_delta env)))
             (Some {| dropIfSlow := Some true |});
           NodeSendToSession sk "chat"
             (OfChat (ChatDelta c sk (seq evt) N text (now_delta env)))] /\
        forall c', index_of (world (handle env evt w)) c' = index_of w c') /\
  (is_tool_start evt = true ->
   exists sk toolName,
     map call (chat_calls (log (handle env evt w))) =
       [Broadcast "chat" (OfChat (ChatTool c sk (seq evt) PhaseStart toolName)) None;
        NodeSendToSession sk "chat"
          (OfChat (ChatTool c sk (seq evt) PhaseStart toolName))] /\
     Forall (fun e => index_of (seen e) c = N + 1)
       (chat_calls (log (handle env evt w))) /\
     index_of (world (handle env evt w)) c = N + 1).
Proof.
  intros Hfresh Htrace w N Hrun Hlive.
  assert (HN : index_of w c = N).
  { subst w N. rewrite (run_index c tr w0 Htrace), Hfresh. lia. }
  unfold live in Hlive. rewrite Hrun in Hlive.
  unfold for_run in Hrun. cbn [fst snd] in Hrun. apply String.eqb_eq in Hrun.
  apply andb_true_iff in Hlive as [Hlive Hterm].
  apply andb_true_iff in Hlive as [Hsk Hab].
  apply negb_true_iff in Hterm, Hab.
  destruct (sessionKey_of env w evt) as [sk|] eqn:Hs; [|discriminate].
  cbn [JS.truthy] in Hsk.
  rewrite handle_chat_calls.
  split.
  - intros text Hdelta. exists sk. split; [reflexivity|].
    destruct (block_delta env evt w sk text Hs Hsk Hab Hdelta) as [Hcalls Hi].
    rewrite Hrun, HN in Hcalls. split; [exact Hcalls|].
    intros c'. rewrite (index_of_chatRunState _ _ c' (handle_chatRunState env evt w)).
    destruct (decide (c' = c)) as [->|Hne].
    + rewrite Hrun in Hi. exact Hi.
    + unfold index_of. rewrite block_other_run; [reflexivity|]. congruence.
  - intros Hstart. unfold is_tool_start in Hstart.
    destruct (tool_marker false evt) as [[toolPhase toolName]|] eqn:Htool;
      [|discriminate].
    assert (Hdelta : delta_text false evt = None).
    { destruct (delta_text false evt) as [text|] eqn:Hdelta; [|reflexivity].
      apply delta_not_tool_start in Hdelta. unfold is_tool_start in Hdelta.
      rewrite Htool in Hdelta. congruence. }
    pose proof (block_tool env evt w sk toolPhase toolName Hs Hsk Hab Hdelta Htool) as H.
    cbn zeta in H. rewrite Hstart, Hrun, HN in H. destruct H as (Hcalls & Hseen & Hi).
    exists sk, toolName. split; [exact Hcalls|]. split; [exact Hseen|].
    by rewrite (index_of_chatRunState _ _ c (handle_chatRunState env evt w)).
Qed.

End RouterSteps.

(** ** The theorems at concrete runs *)

Section Concrete.

Import Router Scenario.

(** The delta after one tool call carries index 1. *)
Lemma delta_carries_tool_start_count_witness :
  let w := world (run until_tool_end fresh) in
  let evt := delta_evt "r1" 4 "Found it" in
  exists sk,
    sessionKey_of env_s1 w evt = Some sk /\
    map call (chat_calls (log (handle env_s1 evt w))) =
      [Broadcast "chat" (OfChat (ChatDelta "r1" sk 4 1 "Found it" 2000))
         (Some {| dropIfSlow := Some true |});
       NodeSendToSession sk "chat" (OfChat (ChatDelta "r1" sk 4 1 "Found it" 2000))] /\
    forall c', index_of (world (handle env_s1 evt w)) c' = index_of w c'.
Proof.
  intros w evt.
  apply (proj1 (delta_carries_tool_start_count "r1" fresh until_tool_end env_s1 evt
                  eq_refl eq_refl eq_refl eq_refl) "Found it").
  reflexivity.
Defined.

(** After [seq] 1, an event with [seq] 3. *)
Lemma seq_gap_reported_witness :
  let w := world (handle env_s1 (delta_evt "r1" 1 "Hel") fresh) in
  let evt := delta_evt "r1" 3 "Hello" in
  (exists d,
      log (handle env_s1 evt w)
      = d :: log (handle env_s1 evt (with_agentRunSeq <["r1" := 2]> w)) /\
      call d = Broadcast "agent" (OfSeqGap "r1" "error" 1000 (Some "s1") (mkSeqGap "seq gap" 2 3)) None) /\
  length (List.filter (fun e => is_gap (call e)) (log (handle env_s1 evt w))) = 1%nat /\
  agentRunSeq (world (handle env_s1 evt w)) !! "r1" = Some 3.
Proof.
  intros w evt.
  assert (Hgap : seq evt <> last_seq w (runId evt) + 1) by (vm_compute; discriminate).
  destruct (seq_gap_reported env_s1 evt w) as (Hseq & Hrest).
  destruct (Hrest Hgap) as (Hd & _ & Hone & _).
  split; [exact Hd|]. split; [exact Hone | exact Hseq].
Defined.

(** With [seq] 1 and 3 the sequence is strictly increasing and starts at
    1, and the second event is reported as a gap. *)
Lemma strictly_increasing_gap_counterexample :
  last_seq fresh "r1" = 0 /\
  seqs_of "r1" skipping = [1; 3] /\
  strictly_increasing (seqs_of "r1" skipping) = true /\
  gaps_for "r1" (log (run skipping fresh))
  = [Broadcast "agent" (OfSeqGap "r1" "error" 1000 (Some "s1") (mkSeqGap "seq gap" 2 3)) None].
Proof. repeat split; reflexivity. Qed.

(** The three events of the scenario, numbered 1, 2, 3. *)
Lemma consecutive_seq_no_gap_witness :
  gaps_for "r1" (log (run until_tool_end fresh)) = [].
Proof.
  apply (consecutive_seq_no_gap "r1" until_tool_end fresh); reflexivity.
Defined.

(** The terminal event of an aborted run that has a link. *)
Lemma aborted_run_cleanup_only_witness :
  let w := linked_late_aborted in
  let evt := lifecycle_evt "r1" 2 "error" in
  chat_calls (log (handle env_s1 evt w)) = [] /\
  abortedRuns (chatRunState (world (handle env_s1 evt w))) !! "c1" = None /\
  messageIndexByRun (chatRunState (world (handle env_s1 evt w))) !! "c1" = None /\
  registry (chatRunState (world (handle env_s1 evt w))) !! "r1" = None.
Proof.
  intros w evt.
  destruct (aborted_run_cleanup_only env_s1 evt w eq_refl) as (Hcalls & _ & Hclean).
  destruct (Hclean eq_refl eq_refl) as (Ha & _ & Hi & _ & _ & Hr & _).
  split; [exact Hcalls|]. split; [exact Ha|]. split; [exact Hi|].
  rewrite Hr. reflexivity.
Defined.

(** The message index entry under the internal run id outlives the
    terminal event of the aborted run; and when the session key does not
    resolve, so does the abort marker. *)
Lemma aborted_cleanup_counterexample :
  (let w := linked_late_aborted in
   let evt := lifecycle_evt "r1" 2 "error" in
   isAborted_of w evt = true /\ is_terminal evt = true /\
   clientRunId_of w evt = "c1" /\ runId evt = "r1" /\
   messageIndexByRun (chatRunState w) !! "r1" = Some 0 /\
   messageIndexByRun (chatRunState (world (handle env_s1 evt w))) !! "r1" = Some 0) /\
  (let w := unlinked_aborted in
   let evt := lifecycle_evt "r1" 1 "error" in
   isAborted_of w evt = true /\ is_terminal evt = true /\
   sessionKey_of env_unresolved w evt = None /\
   abortedRuns (chatRunState (world (handle env_unresolved evt w))) !! "r1" = Some 5).
Proof. repeat split; reflexivity. Qed.

(** The end of the scenario's run. *)
Lemma terminal_leaves_no_entries_witness :
  let w := world (run until_tool_end fresh) in
  let evt := lifecycle_evt "r1" 4 "end" in
  messageIndexByRun (chatRunState w) !! "r1" = Some 1 /\
  messageIndexByRun (chatRunState (world (handle env_s1 evt w))) !! "r1" = None /\
  abortedRuns (chatRunState (world (handle env_s1 evt w))) !! "r1" = None.
Proof.
  intros w evt. split; [reflexivity|].
  destruct (terminal_leaves_no_entries env_s1 evt w eq_refl eq_refl) as (Hi & Ha & _).
  split; [exact Hi | exact Ha].
Defined.

(** When the session key of the run does not resolve, the terminal event
    passes and the entries of its client run id are still there: the
    message index entry of a run that streamed while its session resolved,
    and the abort marker of an aborted run. *)
Lemma terminal_unresolved_counterexample :
  (let w := world (handle env_s1 (delta_evt "r1" 1 "Hi") fresh) in
   let evt := lifecycle_evt "r1" 2 "end" in
   is_terminal evt = true /\ clientRunId_of w evt = "r1" /\
   sessionKey_of env_unresolved w evt = None /\
   messageIndexByRun (chatRunState w) !! "r1" = Some 0 /\
   messageIndexByRun (chatRunState (world (handle env_unresolved evt w))) !! "r1"
   = Some 0) /\
  (let w := unlinked_aborted in
   let evt := lifecycle_evt "r1" 1 "error" in
   is_terminal evt = true /\ clientRunId_of w evt = "r1" /\
   sessionKey_of env_unresolved w evt = None /\
   abortedRuns (chatRunState (world (handle env_unresolved evt w))) !! "r1" = Some 5).
Proof. repeat split; reflexivity. Qed.

(** Two calls and three results: one match by id, one by name, one orphan. *)
Lemma pairToolCards_spec_witness :
  let mk := GroupedRender.mkToolCard in
  GroupedRender.pairToolCards
    [mk GroupedRender.call (Some "a") "search" None;
     mk GroupedRender.call None "read" None]
    [mk GroupedRender.result None "read" (Some "file");
     mk GroupedRender.result (Some "a") "find" (Some "5 results");
     mk GroupedRender.result (Some "z") "other" (Some "late")]
  = Some [mk GroupedRender.call (Some "a") "search" (Some "5 results");
          mk GroupedRender.call None "read" (Some "file");
          mk GroupedRender.result (Some "z") "other" (Some "late")].
Proof.
  intros mk. exact (proj1 (pairToolCards_spec _ _)).
Defined.

End Concrete.

(** * Further properties *)

(** ** Run link registry: queues *)

Section RegistryQueues.

Import Registry RegistryUse.

Implicit Types (m : Registry.t) (entry : ChatRunEntry) (queue : list ChatRunEntry).

Lemma store_queue_nonempty sessionId queue m :
  nonempty_queues m -> nonempty_queues (store_queue sessionId queue m).
Proof.
  intros Hm k q. unfold store_queue. destruct queue as [|e queue].
  - intros [_ Hq]%lookup_delete_Some. by apply (Hm k).
  - intros [[_ <-]|[_ Hq]]%lookup_insert_Some; [done | by apply (Hm k)].
Qed.

Lemma add_nonempty sessionId entry m :
  nonempty_queues m -> nonempty_queues (add sessionId entry m).
Proof.
  intros Hm k q. unfold add. destruct (m !! sessionId) as [queue|].
  - intros [[_ <-]|[_ Hq]]%lookup_insert_Some; [by destruct queue | by apply (Hm k)].
  - intros [[_ <-]|[_ Hq]]%lookup_insert_Some; [done | by apply (Hm k)].
Qed.

Lemma shift_nonempty sessionId m :
  nonempty_queues m -> nonempty_queues (snd (shift sessionId m)).
Proof.
  intros Hm. unfold shift. destruct (m !! sessionId) as [[|e q]|]; try done.
  by apply store_queue_nonempty.
Qed.

Lemma remove_nonempty sessionId wanted sessionKey' m :
  nonempty_queues m -> nonempty_queues (snd (remove sessionId wanted sessionKey' m)).
Proof.
  intros Hm. unfold remove. destruct (m !! sessionId) as [[|e q]|]; try done.
  destruct (JS.findIndex _ _); [|done]. by apply store_queue_nonempty.
Qed.

Lemma singleton_nonempty sessionId entry :
  nonempty_queues (add sessionId entry ∅).
Proof. apply add_nonempty. intros k q. by rewrite lookup_empty. Qed.

(** X1.  The registry never keeps an empty queue: the empty registry has
    none, and [add], [shift], [remove] and [clear] produce none from a
    registry that has none.  In such a registry a context key has a current
    link exactly when it has an entry in the map. *)
Theorem registry_keeps_queues_nonempty m :
  nonempty_queues m ->
  (forall sessionId entry, nonempty_queues (add sessionId entry m)) /\
  (forall sessionId, nonempty_queues (snd (shift sessionId m))) /\
  (forall sessionId wanted sessionKey',
      nonempty_queues (snd (remove sessionId wanted sessionKey' m))) /\
  nonempty_queues (clear m) /\
  (forall sessionId, peek sessionId m = None <-> m !! sessionId = None).
Proof.
  intros Hm. split; [|split; [|split; [|split]]].
  - intros. by apply add_nonempty.
  - intros. by apply shift_nonempty.
  - intros. by apply remove_nonempty.
  - intros k q. unfold clear. by rewrite lookup_empty.
  - intros k. unfold peek. destruct (m !! k) as [[|e q]|] eqn:Hk; try done.
    by destruct (Hm k [] Hk).
Qed.

(** *** First in, first out *)

Lemma add_all_queue sessionId entries m :
  m !! sessionId <> Some [] ->
  add_all sessionId entries m =
    match queue_of sessionId m ++ entries with
    | [] => m
    | queue => <[sessionId := queue]> m
    end.
Proof.
  revert m. induction entries as [|e entries IH]; intros m Hk; cbn [add_all foldl].
  - rewrite app_nil_r. unfold queue_of.
    destruct (m !! sessionId) as [[|x q]|] eqn:Hq; cbn; try done.
    by rewrite insert_id.
  - fold (add_all sessionId entries (add sessionId e m)). rewrite IH.
    + unfold queue_of, add.
      destruct (m !! sessionId) as [q|] eqn:Hq; cbn; rewrite lookup_insert_eq; cbn.
      * rewrite <- app_assoc. cbn.
        destruct (q ++ e :: entries) eqn:Hl; [by destruct q|].
        by rewrite insert_insert_eq.
      * by rewrite insert_insert_eq.
    + unfold add. destruct (m !! sessionId) as [q|]; rewrite lookup_insert_eq;
        [by destruct q | done].
Qed.

Lemma shift_of_insert sessionId entry queue m :
  shift sessionId (<[sessionId := entry :: queue]> m)
  = (Some entry,
     match queue with
     | [] => delete sessionId m
     | _ => <[sessionId := queue]> m
     end).
Proof.
  unfold shift. rewrite lookup_insert_eq. unfold store_queue.
  destruct queue; [by rewrite delete_insert_eq | by rewrite insert_insert_eq].
Qed.

Lemma shift_times_drains sessionId queue m :
  queue <> [] ->
  shift_times (length queue) sessionId (<[sessionId := queue]> m)
  = (map Some queue, delete sessionId m).
Proof.
  revert m. induction queue as [|e queue IH]; intros m Hne; [done|].
  cbn [length shift_times]. rewrite shift_of_insert. cbn [fst snd].
  destruct queue as [|e' queue]; [reflexivity|].
  by rewrite IH.
Qed.

(** X2.  The queue of a context is first in, first out: after any entries
    are added to a context, as many calls of [shift] as the queue is long
    return what was queued before and then the added entries, in the order
    they were added, and leave no queue for the context; one more [shift]
    returns [undefined]. *)
Theorem shift_times_fifo sessionId entries m :
  m !! sessionId <> Some [] ->
  let queue := queue_of sessionId m ++ entries in
  shift_times (length queue) sessionId (add_all sessionId entries m)
  = (map Some queue, delete sessionId m) /\
  fst (shift sessionId (delete sessionId m)) = None.
Proof.
  intros Hk queue. split.
  - rewrite add_all_queue by done. fold queue.
    destruct queue as [|e q] eqn:Hq.
    + cbn. f_equal. symmetry. apply delete_id.
      subst queue. unfold queue_of in Hq.
      destruct (m !! sessionId) as [[|x l]|]; try done.
    + by apply shift_times_drains.
  - unfold shift. by rewrite lookup_delete_eq.
Qed.

(** *** Taking out what was put in *)

Lemma remove_at_split sessionId wanted sessionKey' m pre entry post :
  m !! sessionId = Some (pre ++ entry :: post) ->
  Forall (fun e => matches wanted sessionKey' e = false) pre ->
  matches wanted sessionKey' entry = true ->
  remove sessionId wanted sessionKey' m
  = (Some entry, store_queue sessionId (pre ++ post) m).
Proof.
  intros Hq Hpre He. unfold remove. rewrite Hq.
  destruct (pre ++ entry :: post) eqn:Hl; [by destruct pre|]. rewrite <- Hl.
  unfold JS.findIndex.
  rewrite (findIndex_from_first (matches wanted sessionKey')); auto. simpl.
  by rewrite lookup_at_split, delete_at_split.
Qed.

(** X3.  Removing a link that was just added gives the registry back:
    when no link queued for the context has the client run id, [add]
    followed by [remove] of that client run id (with the link's session
    key, or without one) returns the added link and leaves the registry as
    it was before the [add]. *)
Theorem add_then_remove sessionId entry sessionKey' m :
  m !! sessionId <> Some [] ->
  Forall (fun e => clientRunId e <> clientRunId entry) (queue_of sessionId m) ->
  sessionKey' = None \/ sessionKey' = Some (sessionKey entry) ->
  remove sessionId (clientRunId entry) sessionKey' (add sessionId entry m)
  = (Some entry, m).
Proof.
  intros Hk Hfresh Hsk.
  assert (Hentry : matches (clientRunId entry) sessionKey' entry = true).
  { unfold matches. rewrite String.eqb_refl. cbn.
    destruct Hsk as [->| ->]; [done|]. rewrite String.eqb_refl. by destruct JS.truthy_string. }
  assert (Hqueue : Forall (fun e => matches (clientRunId entry) sessionKey' e = false)
                     (queue_of sessionId m)).
  { eapply Forall_impl; [exact Hfresh|]. intros e He. unfold matches.
    by apply String.eqb_neq in He as ->. }
  unfold queue_of in *. unfold add.
  destruct (m !! sessionId) as [queue|] eqn:Hq; cbn in Hqueue.
  - rewrite (remove_at_split sessionId _ _ _ queue entry []); auto.
    + rewrite app_nil_r. unfold store_queue.
      destruct queue as [|e q]; [done|].
      rewrite insert_insert_eq. by rewrite insert_id.
    + by rewrite lookup_insert_eq.
  - rewrite (remove_at_split sessionId _ _ _ [] entry []); auto.
    + cbn. rewrite delete_insert_eq. by rewrite delete_id.
    + by rewrite lookup_insert_eq.
Qed.

(** X4.  The operations on one context key leave the queue of every other
    context key as it is. *)
Theorem registry_other_contexts sessionId other m :
  sessionId <> other ->
  (forall entry, add sessionId entry m !! other = m !! other) /\
  snd (shift sessionId m) !! other = m !! other /\
  (forall wanted sessionKey',
      snd (remove sessionId wanted sessionKey' m) !! other = m !! other).
Proof.
  intros Hne.
  assert (Hstore : forall queue, store_queue sessionId queue m !! other = m !! other).
  { intros [|e q]; unfold store_queue;
      [by rewrite lookup_delete_ne | by rewrite lookup_insert_ne]. }
  split; [|split].
  - intros entry. unfold add. destruct (m !! sessionId); by rewrite lookup_insert_ne.
  - unfold shift. destruct (m !! sessionId) as [[|e q]|]; try done. apply Hstore.
  - intros wanted sessionKey'. unfold remove.
    destruct (m !! sessionId) as [[|e q]|]; try done.
    destruct (JS.findIndex _ _); [apply Hstore | done].
Qed.

End RegistryQueues.

(** A registry with one link. *)
Lemma registry_keeps_queues_nonempty_witness :
  let m : Registry.t := Registry.add "ctx" (Registry.mkEntry "s1" "run-a") ∅ in
  RegistryUse.nonempty_queues (snd (Registry.shift "ctx" m)) /\
  RegistryUse.nonempty_queues
    (Registry.add "ctx" (Registry.mkEntry "s1" "run-b") m).
Proof.
  intros m.
  destruct (registry_keeps_queues_nonempty m
              (singleton_nonempty "ctx" (Registry.mkEntry "s1" "run-a")))
    as (Hadd & Hshift & _).
  split; [apply Hshift | apply Hadd].
Defined.

(** Two links queued for one context, in a registry with another context. *)
Lemma shift_times_fifo_witness :
  let a := Registry.mkEntry "s1" "run-a" in
  let b := Registry.mkEntry "s1" "run-b" in
  let m : Registry.t := {[ "other" := [Registry.mkEntry "s2" "run-z"] ]} in
  RegistryUse.shift_times 2 "ctx" (RegistryUse.add_all "ctx" [a; b] m)
  = ([Some a; Some b], delete "ctx" m).
Proof.
  intros a b m.
  assert (Hk : m !! "ctx" <> Some []) by (vm_compute; discriminate).
  exact (proj1 (shift_times_fifo "ctx" [a; b] m Hk)).
Defined.

(** A second link is added behind a first one and removed again. *)
Lemma add_then_remove_witness :
  let a := Registry.mkEntry "s1" "run-a" in
  let b := Registry.mkEntry "s1" "run-b" in
  let m : Registry.t := {[ "ctx" := [a] ]} in
  Registry.remove "ctx" "run-b" (Some "s1") (Registry.add "ctx" b m) = (Some b, m).
Proof.
  intros a b m.
  assert (Hk : m !! "ctx" <> Some []) by (vm_compute; discriminate).
  apply (add_then_remove "ctx" b (Some "s1") m Hk).
  - repeat constructor. cbn. discriminate.
  - right. reflexivity.
Defined.

(** Shifting context [ctx] does not touch context [other]. *)
Lemma registry_other_contexts_witness :
  let m : Registry.t :=
    <["ctx" := [Registry.mkEntry "s1" "run-a"]]>
      {[ "other" := [Registry.mkEntry "s2" "run-z"] ]} in
  snd (Registry.shift "ctx" m) !! "other" = Some [Registry.mkEntry "s2" "run-z"].
Proof.
  intros m.
  assert (Hne : "ctx" <> "other") by discriminate.
  rewrite (proj1 (proj2 (registry_other_contexts "ctx" "other" m Hne))).
  reflexivity.
Defined.

(** ** Event router: what every event does *)

Section RouterMore.

Import Registry Router RouterUse RegistryUse.

Implicit Types (env : Env) (evt : AgentEventPayload) (w : World).

(** The session block, whatever branch it takes: it never returns early,
    never calls [clearAgentRunContext], never broadcasts on the general
    channel, leaves the registry as it is or takes out the current link,
    leaves the abort markers as they are or deletes those of the run, and
    makes at most one chat notification. *)
Lemma block_shape env evt w :
  let b := session_block env evt w (seq_written evt w) in
  let c := clientRunId_of w evt in
  val b = true /\
  Forall (fun e => is_clear_call (call e) = false /\ is_agent_forward (call e) = false)
    (log b) /\
  (registry (chatRunState (world b)) = registry (chatRunState w) \/
   registry (chatRunState (world b))
   = snd (Registry.shift (runId evt) (registry (chatRunState w)))) /\
  (abortedRuns (chatRunState (world b)) = abortedRuns (chatRunState w) \/
   abortedRuns (chatRunState (world b))
   = delete (runId evt) (delete c (abortedRuns (chatRunState w)))) /\
  (map call (chat_calls (log b)) = [] \/
   exists p opts sk,
     sessionKey_of env w evt = Some sk /\
     map call (chat_calls (log b))
     = [Broadcast "chat" (OfChat p) opts; NodeSendToSession sk "chat" (OfChat p)] /\
     chat_runId p = c /\ chat_sessionKey p = sk /\ chat_seq p = seq evt).
Proof.
  cbn zeta. unfold session_block.
  pose proof (shift_peek (runId evt) (registry (chatRunState w))) as Hshift.
  pose proof (remove_head (runId evt) (registry (chatRunState w))) as Hremove.
  unfold clientRunId_of, sessionKey_of in *. unfold chatLink_of in *.
  destruct (Registry.peek (runId evt) (registry (chatRunState w))) as [l|] eqn:Hlink.
  - specialize (Hremove l eq_refl).
    destruct (JS.truthy_string (sessionKey l)) eqn:Hsk.
    2:{ repeat split; auto. }
    specialize (Hremove eq_refl).
    unfold_handler. unfold seq_written.
    destruct (skipDetailedToolBroadcast_of env w evt);
      cbn [val world log app negb chatRunState with_agentRunSeq registry];
      all_cases; cbn in *;
      try match goal with
          | H : fst (Registry.shift _ _) = _ |- _ => rewrite Hshift in H; simplify_eq
          end;
      rewrite ?Hremove; cbn;
      (split; [reflexivity|]); (split; [repeat constructor|]);
      (split; [auto|]); (split; [auto|]); eauto 10.
  - destruct (resolveSessionKeyForRun env (runId evt)) as [sk|].
    2:{ repeat split; auto. }
    destruct (JS.truthy_string sk) eqn:Hsk.
    2:{ repeat split; auto. }
    unfold_handler. unfold seq_written.
    destruct (skipDetailedToolBroadcast_of env w evt);
      cbn [val world log app negb chatRunState with_agentRunSeq registry];
      all_cases; cbn in *;
      (split; [reflexivity|]); (split; [repeat constructor|]);
      (split; [auto|]); (split; [auto|]); eauto 10.
Qed.

Lemma filter_map_app {A B} (f : A -> B) (p : B -> bool) (l1 l2 : list A) :
  List.filter p (map f (l1 ++ l2)) = List.filter p (map f l1) ++ List.filter p (map f l2).
Proof. by rewrite map_app, List.filter_app. Qed.

Lemma filter_map_none {A B} (f : A -> B) (p : B -> bool) (l : list A) :
  Forall (fun x => p (f x) = false) l -> List.filter p (map f l) = [].
Proof.
  intros H. apply filter_none. induction H; cbn; constructor; auto.
Qed.

Lemma unresolved_session_state env evt w :
  JS.truthy (sessionKey_of env w evt) = false ->
  index_of (world (handle env evt w)) = index_of w.
Proof.
  intros Hsk. rewrite handle_unfold. cbn [world].
  unfold session_block. destruct (sessionKey_of env w evt) as [sk|]; [|done].
  cbn in Hsk. by rewrite Hsk.
Qed.

(** X5.  [clearAgentRunContext] is called once, for the event's run, when
    the event is a lifecycle end or error, whether or not the run is
    aborted or its session key resolves, and is not called for any other
    event. *)
Theorem clear_context_once env evt w :
  List.filter is_clear_call (map call (log (handle env evt w)))
  = if is_terminal evt then [ClearAgentRunContext (runId evt)] else [].
Proof.
  rewrite handle_unfold. cbn [log].
  destruct (block_shape env evt w) as (Hval & Hlog & _).
  rewrite Hval. cbn [andb]. rewrite !filter_map_app.
  rewrite (filter_map_none call is_clear_call (log (session_block _ _ _ _))).
  2:{ eapply Forall_impl; [exact Hlog|]. by intros e [? _]. }
  replace (List.filter is_clear_call (map call (if Z.eqb _ _ then _ else _)))
    with (@nil Call) by (case_inner; reflexivity).
  replace (List.filter is_clear_call
             (map call (if skipDetailedToolBroadcast_of env w evt then _ else _)))
    with (@nil Call) by (case_inner; reflexivity).
  by destruct (is_terminal evt).
Qed.

(** X6.  An event whose session key does not resolve (no link and no
    resolved key, or an empty key) reaches the general channel only: no
    chat notification is made, nothing is sent to a node session, and the
    registry, the message indices and the abort markers stay as they are. *)
Theorem unresolved_session_general_only env evt w :
  JS.truthy (sessionKey_of env w evt) = false ->
  chatRunState (world (handle env evt w)) = chatRunState w /\
  chat_calls (log (handle env evt w)) = [] /\
  List.filter is_node_send (map call (log (handle env evt w))) = [].
Proof.
  intros Hsk. rewrite handle_unfold. cbn [world log].
  assert (Hb : session_block env evt w (seq_written evt w)
               = mkRes true (seq_written evt w) []).
  { unfold session_block. destruct (sessionKey_of env w evt) as [sk|]; [|done].
    cbn in Hsk. by rewrite Hsk. }
  rewrite Hb. cbn [val world log andb app]. split; [reflexivity|].
  split; repeat case_inner; reflexivity.
Qed.

(** X7.  The event itself is broadcast on the general channel once, with
    the session key attached when it resolves, unless it is a tool event
    and tool events are not to be emitted for the run; then it is not
    broadcast there at all. *)
Theorem agent_forward_unless_suppressed env evt w :
  List.filter is_agent_forward (map call (log (handle env evt w)))
  = if skipDetailedToolBroadcast_of env w evt then []
    else [Broadcast "agent"
            (if JS.truthy (sessionKey_of env w evt)
             then OfAgent evt (sessionKey_of env w evt)
             else OfAgent evt None) None].
Proof.
  rewrite handle_unfold. cbn [log].
  destruct (block_shape env evt w) as (_ & Hlog & _).
  rewrite !filter_map_app.
  rewrite (filter_map_none call is_agent_forward (log (session_block _ _ _ _))).
  2:{ eapply Forall_impl; [exact Hlog|]. by intros e [_ ?]. }
  replace (List.filter is_agent_forward (map call (if Z.eqb _ _ then _ else _)))
    with (@nil Call) by (case_inner; reflexivity).
  replace (List.filter is_agent_forward (map call (if _ && is_terminal evt then _ else _)))
    with (@nil Call) by (case_inner; reflexivity).
  unfold agentPayload_of.
  destruct (skipDetailedToolBroadcast_of env w evt); [reflexivity|].
  cbn. by destruct (JS.truthy (sessionKey_of env w evt)).
Qed.

(** X8.  An event makes at most one chat notification.  When it makes one,
    the notification is broadcast and then sent to the node session of the
    resolved session key with the same payload, and the payload names the
    resolved client run id, the resolved session key and the event's
    [seq]. *)
Theorem chat_notification_shape env evt w :
  let calls := map call (chat_calls (log (handle env evt w))) in
  calls = [] \/
  exists p opts sk,
    sessionKey_of env w evt = Some sk /\
    calls = [Broadcast "chat" (OfChat p) opts; NodeSendToSession sk "chat" (OfChat p)] /\
    chat_runId p = clientRunId_of w evt /\
    chat_sessionKey p = sk /\
    chat_seq p = seq evt.
Proof.
  cbn zeta. rewrite handle_chat_calls.
  by destruct (block_shape env evt w) as (_ & _ & _ & _ & H).
Qed.

(** X9.  An event that is not a lifecycle end or error never lowers a
    message index: the index of every client run id stays or grows by one,
    and only the index of the event's own client run id can change. *)
Theorem index_never_decrements env evt w c :
  is_terminal evt = false ->
  index_of w c <= index_of (world (handle env evt w)) c <= index_of w c + 1 /\
  (clientRunId_of w evt <> c ->
   messageIndexByRun (chatRunState (world (handle env evt w))) !! c
   = messageIndexByRun (chatRunState w) !! c).
Proof.
  intros Hterm.
  split; [|intros Hne; rewrite handle_chatRunState; by apply block_other_run].
  destruct (decide (clientRunId_of w evt = c)) as [Hc|Hc].
  2:{ unfold index_of. rewrite handle_chatRunState, block_other_run by done. lia. }
  destruct (JS.truthy (sessionKey_of env w evt)) eqn:Hsk.
  2:{ rewrite (unresolved_session_state env evt w Hsk). lia. }
  destruct (isAborted_of w evt) eqn:Hab.
  - destruct (block_aborted env evt w Hab) as (_ & Hkeep & _).
    rewrite (index_of_chatRunState w (world (handle env evt w)) c); [lia|].
    rewrite handle_chatRunState. by apply Hkeep.
  - assert (Hlive : live c (w, env, evt) = true).
    { unfold live, for_run. cbn [fst snd]. apply String.eqb_eq in Hc. rewrite Hc.
      by rewrite Hsk, Hab, Hterm. }
    rewrite (live_step c env evt w Hlive).
    destruct (tool_start_for c (w, env, evt)); lia.
Qed.

(** *** The two tracks of a tool event *)

Lemma dispatch_chat_track env env' evt chatLink sessionKey clientRunId isAborted
    skip skip' agentPayload agentPayload' lifecyclePhase w1 :
  formatForLog env = formatForLog env' ->
  now_delta env = now_delta env' ->
  world (dispatch env evt chatLink sessionKey clientRunId isAborted skip
           agentPayload lifecyclePhase w1)
  = world (dispatch env' evt chatLink sessionKey clientRunId isAborted skip'
             agentPayload' lifecyclePhase w1) /\
  chat_calls (log (dispatch env evt chatLink sessionKey clientRunId isAborted skip
                     agentPayload lifecyclePhase w1))
  = chat_calls (log (dispatch env' evt chatLink sessionKey clientRunId isAborted skip'
                       agentPayload' lifecyclePhase w1)).
Proof.
  intros Hfmt Hnow. unfold_handler. rewrite Hfmt, Hnow.
  destruct skip, skip'; cbn [val world log app negb]; all_cases; by split.
Qed.

(** X10.  What decides verbosity (the run context, the session entry, the
    configured default, a failing load) has no effect on the chat channel
    or on the stores: in two surroundings that resolve session keys, format
    errors and read the delta clock alike, an event makes the same chat
    notifications, observed in the same stores, and leaves the same
    stores. *)
Theorem chat_track_ignores_verbosity env env' evt w :
  same_but_verbosity env env' ->
  world (handle env evt w) = world (handle env' evt w) /\
  chat_calls (log (handle env evt w)) = chat_calls (log (handle env' evt w)).
Proof.
  intros (Hres & Hfmt & Hnow). rewrite !handle_chat_calls, !handle_unfold.
  cbn [world]. unfold session_block.
  assert (Hs : sessionKey_of env w evt = sessionKey_of env' w evt).
  { unfold sessionKey_of. by rewrite Hres. }
  rewrite <- Hs.
  destruct (sessionKey_of env w evt) as [sk|]; [|by split].
  destruct (JS.truthy_string sk); [|by split].
  by apply dispatch_chat_track.
Qed.

(** *** Links are consumed in the order they were queued *)

Lemma handle_registry_of_terminal env evt w :
  is_terminal evt = true ->
  JS.truthy (sessionKey_of env w evt) = true ->
  registry (chatRunState (world (handle env evt w)))
  = snd (Registry.shift (runId evt) (registry (chatRunState w))).
Proof.
  intros Hterm Hsk. rewrite handle_chatRunState.
  destruct (isAborted_of w evt) eqn:Hab.
  - destruct (block_aborted env evt w Hab) as (_ & _ & Hclean).
    by destruct (Hclean Hterm Hsk) as (_ & _ & Hr).
  - destruct (sessionKey_of env w evt) as [sk|] eqn:Hs; [|discriminate].
    by destruct (block_terminal_live env evt w sk Hs Hsk Hab Hterm) as (_ & _ & _ & Hr).
Qed.

(** X11.  A lifecycle end or error of a run whose current link has a
    session key consumes that link and no other: the next link queued for
    the run's context becomes the current one (or the context has no queue
    left), whether the run is aborted or not, and the queues of the other
    contexts are untouched. *)
Theorem terminal_consumes_current_link env evt w l queue :
  is_terminal evt = true ->
  registry (chatRunState w) !! runId evt = Some (l :: queue) ->
  JS.truthy_string (sessionKey l) = true ->
  let w' := world (handle env evt w) in
  chatLink_of w' evt = head queue /\
  registry (chatRunState w') !! runId evt
  = match queue with [] => None | _ => Some queue end /\
  (forall other, other <> runId evt ->
                 registry (chatRunState w') !! other = registry (chatRunState w) !! other).
Proof.
  intros Hterm Hq Hsk. cbn zeta.
  assert (Hs : JS.truthy (sessionKey_of env w evt) = true).
  { unfold sessionKey_of, chatLink_of, peek. by rewrite Hq. }
  unfold chatLink_of. rewrite (handle_registry_of_terminal env evt w Hterm Hs).
  unfold shift, peek. rewrite Hq. cbn [snd]. unfold store_queue.
  destruct queue as [|e q].
  - rewrite lookup_delete_eq. repeat split. intros other Hne.
    by rewrite lookup_delete_ne.
  - rewrite lookup_insert_eq. repeat split. intros other Hne.
    by rewrite lookup_insert_ne.
Qed.

(** *** What a sequence of events cannot do to the stores *)

Lemma shift_queue_suffix sessionId k (m : Registry.t) :
  queue_of k (snd (Registry.shift sessionId m)) `suffix_of` queue_of k m.
Proof.
  unfold shift, queue_of. destruct (m !! sessionId) as [[|e q]|] eqn:Hq; try done.
  cbn [snd]. unfold store_queue. destruct (decide (sessionId = k)) as [<-|Hne].
  - rewrite Hq. destruct q as [|e' q].
    + rewrite lookup_delete_eq. cbn. by exists [e].
    + rewrite lookup_insert_eq. cbn. by exists [e].
  - destruct q; [by rewrite lookup_delete_ne | by rewrite lookup_insert_ne].
Qed.

Lemma handle_registry_step env evt w :
  registry (chatRunState (world (handle env evt w))) = registry (chatRunState w) \/
  registry (chatRunState (world (handle env evt w)))
  = snd (Registry.shift (runId evt) (registry (chatRunState w))).
Proof.
  rewrite handle_chatRunState.
  by destruct (block_shape env evt w) as (_ & _ & H & _).
Qed.

Lemma handle_abortedRuns_step env evt w :
  abortedRuns (chatRunState (world (handle env evt w))) ⊆ abortedRuns (chatRunState w).
Proof.
  rewrite handle_chatRunState.
  destruct (block_shape env evt w) as (_ & _ & _ & [-> | ->] & _); [done|].
  etrans; apply delete_subseteq.
Qed.

(** X12.  Whatever events arrive, the handler only ever takes links off
    the front of a queue: after any sequence of events the queue of every
    context is a suffix of what it was, and a registry without empty
    queues still has none. *)
Theorem run_only_consumes_links tr w :
  (forall k, queue_of k (registry (chatRunState (world (run tr w))))
             `suffix_of` queue_of k (registry (chatRunState w))) /\
  (nonempty_queues (registry (chatRunState w)) ->
   nonempty_queues (registry (chatRunState (world (run tr w))))).
Proof.
  revert w. induction tr as [|[env evt] tr IH]; intros w.
  - by split.
  - rewrite (proj1 (run_cons env evt tr w)).
    destruct (IH (world (handle env evt w))) as [Hsuffix Hne].
    destruct (handle_registry_step env evt w) as [Hr|Hr].
    + rewrite Hr in Hsuffix, Hne. by split.
    + rewrite Hr in Hsuffix, Hne. split.
      * intros k. etrans; [apply Hsuffix | apply shift_queue_suffix].
      * intros Hw. apply Hne. by apply shift_nonempty.
Qed.

(** X13.  The handler never marks a run as aborted: after any sequence of
    events every abort marker present was present before, with the same
    timestamp. *)
Theorem run_creates_no_abort_marker tr w k t :
  abortedRuns (chatRunState (world (run tr w))) !! k = Some t ->
  abortedRuns (chatRunState w) !! k = Some t.
Proof.
  revert w. induction tr as [|[env evt] tr IH]; intros w; [done|].
  rewrite (proj1 (run_cons env evt tr w)). intros H%IH.
  by eapply lookup_weaken; [|apply handle_abortedRuns_step].
Qed.

(** X14.  The sequence counter of a run holds the [seq] of the last event
    received for it, in order or not; it is untouched by the events of
    other runs. *)
Theorem seq_counter_holds_last_received r tr w :
  last_seq (world (run tr w)) r = default (last_seq w r) (last (seqs_of r tr)).
Proof.
  revert w. induction tr as [|[env evt] tr IH]; intros w; [done|].
  rewrite (proj1 (run_cons env evt tr w)), IH.
  unfold seqs_of. cbn [List.filter snd].
  destruct (String.eqb_spec (runId evt) r) as [Hr|Hr].
  - cbn [map snd]. rewrite last_cons. unfold last_seq at 1. subst r.
    rewrite handle_sets_seq. cbn. by destruct (last _).
  - unfold last_seq. by rewrite handle_seq_other.
Qed.

(** X15.  Whether tool events are emitted for a run is decided by the
    first level that normalizes to a non-empty value: the run context's,
    then the session entry's, then the configured default.  When the run
    context's level is non-empty the answer is whether it is "on", and the
    session is not consulted.  Otherwise a missing or empty session key, or
    a session entry that fails to load, gives [false]; and when the entry
    loads, the answer is whether the entry's level is "on" if that level
    is non-empty, and whether the default is "on" if it is not: a session
    that says "off" is not overridden by a default of "on".  So the answer
    is [true] only when the deciding level normalizes to "on". *)
Theorem shouldEmitToolEvents_levels env runId' sessionKey :
  let runVerbose := normalizeVerboseLevel env (runContext_verboseLevel env runId') in
  (JS.truthy runVerbose = true ->
   shouldEmitToolEvents env runId' sessionKey = bool_decide (runVerbose = Some "on")) /\
  (JS.truthy runVerbose = false -> JS.truthy sessionKey = false ->
   shouldEmitToolEvents env runId' sessionKey = false) /\
  (JS.truthy runVerbose = false ->
   forall sk, sessionKey = Some sk -> loadSessionEntry env sk = None ->
              shouldEmitToolEvents env runId' sessionKey = false) /\
  (JS.truthy runVerbose = false ->
   forall sk l,
     sessionKey = Some sk -> JS.truthy_string sk = true ->
     loadSessionEntry env sk = Some l ->
     let sessionVerbose := normalizeVerboseLevel env (entry_verboseLevel l) in
     let defaultVerbose := normalizeVerboseLevel env (cfg_verboseDefault l) in
     shouldEmitToolEvents env runId' sessionKey =
       if JS.truthy sessionVerbose then bool_decide (sessionVerbose = Some "on")
       else bool_decide (defaultVerbose = Some "on")) /\
  (shouldEmitToolEvents env runId' sessionKey = true ->
   runVerbose = Some "on" \/
   exists sk l, sessionKey = Some sk /\ loadSessionEntry env sk = Some l /\
     (normalizeVerboseLevel env (entry_verboseLevel l) = Some "on" \/
      (JS.truthy (normalizeVerboseLevel env (entry_verboseLevel l)) = false /\
       normalizeVerboseLevel env (cfg_verboseDefault l) = Some "on"))).
Proof.
  cbn zeta. unfold shouldEmitToolEvents.
  destruct (JS.truthy (normalizeVerboseLevel env (runContext_verboseLevel env runId')))
    eqn:Hrun.
  - repeat split; try discriminate. intros H%bool_decide_eq_true. by left.
  - split; [discriminate|]. split; [|split; [|split]].
    + intros _. destruct sessionKey as [sk|]; [|done]. cbn. by intros ->.
    + intros _ sk -> Hload. rewrite Hload. by destruct (JS.truthy_string sk).
    + intros _ sk l -> Hsk Hload. by rewrite Hsk, Hload.
    + destruct sessionKey as [sk|]; [|discriminate].
      destruct (JS.truthy_string sk); [|discriminate].
      destruct (loadSessionEntry env sk) as [l|] eqn:Hload; [|discriminate].
      intros H. right. exists sk, l. repeat split; [done|].
      destruct (JS.truthy (normalizeVerboseLevel env (entry_verboseLevel l)));
        apply bool_decide_eq_true in H; auto.
Qed.

End RouterMore.

Section RouterMoreConcrete.

Import Router RouterUse RegistryUse Scenario.

(** A delta of a run that resolves to no session. *)
Lemma unresolved_session_general_only_witness :
  let evt := delta_evt "r1" 1 "Hello" in
  chatRunState (world (handle env_unresolved evt fresh)) = chatRunState fresh /\
  chat_calls (log (handle env_unresolved evt fresh)) = [] /\
  List.filter is_node_send (map call (log (handle env_unresolved evt fresh))) = [].
Proof.
  intros evt. apply (unresolved_session_general_only env_unresolved evt fresh).
  reflexivity.
Defined.

(** The tool start of the scenario raises the index of [r1] from 0 to 1. *)
Lemma index_never_decrements_witness :
  let w := world (handle env_s1 (delta_evt "r1" 1 "Hello") fresh) in
  let evt := tool_evt "r1" 2 "start" "search" in
  index_of w "r1" <= index_of (world (handle env_s1 evt w)) "r1" <= index_of w "r1" + 1.
Proof.
  intros w evt. apply (index_never_decrements env_s1 evt w "r1"). reflexivity.
Defined.

(** Verbosity off against verbosity on in the run context. *)
Lemma chat_track_ignores_verbosity_witness :
  let verbose :=
    {| resolveSessionKeyForRun := resolveSessionKeyForRun env_s1;
       runContext_verboseLevel := fun _ => Some "on";
       normalizeVerboseLevel := fun v => v;
       loadSessionEntry := fun _ => None;
       formatForLog := formatForLog env_s1;
       now_gap := 7;
       now_delta := now_delta env_s1 |} in
  let evt := tool_evt "r1" 1 "start" "search" in
  skipDetailedToolBroadcast_of env_s1 fresh evt = true /\
  skipDetailedToolBroadcast_of verbose fresh evt = false /\
  chat_calls (log (handle env_s1 evt fresh)) = chat_calls (log (handle verbose evt fresh)).
Proof.
  intros verbose evt. split; [reflexivity|]. split; [reflexivity|].
  apply (chat_track_ignores_verbosity env_s1 verbose evt fresh).
  repeat split.
Defined.

(** Two links queued for [r1]; its lifecycle end consumes the first. *)
Lemma terminal_consumes_current_link_witness :
  let a := Registry.mkEntry "s1" "c1" in
  let b := Registry.mkEntry "s1" "c2" in
  let w := with_registry (add_all "r1" [a; b]) fresh in
  let evt := lifecycle_evt "r1" 1 "end" in
  chatLink_of (world (handle env_s1 evt w)) evt = Some b.
Proof.
  intros a b w evt.
  apply (terminal_consumes_current_link env_s1 evt w a [b]); reflexivity.
Defined.

(** The registry of the late-linked run, over the events of the scenario. *)
Lemma run_only_consumes_links_witness :
  nonempty_queues (registry (chatRunState (world (run until_tool_end linked_late_aborted)))).
Proof.
  apply (proj2 (run_only_consumes_links until_tool_end linked_late_aborted)).
  cbn. apply singleton_nonempty.
Defined.

(** The marker that outlives a terminal event was there before it. *)
Lemma run_creates_no_abort_marker_witness :
  abortedRuns (chatRunState unlinked_aborted) !! "r1" = Some 5.
Proof.
  apply (run_creates_no_abort_marker
           [(env_unresolved, lifecycle_evt "r1" 1 "error")] unlinked_aborted "r1" 5).
  reflexivity.
Defined.

(** A session entry that says "off" under a default that says "on". *)
Lemma shouldEmitToolEvents_levels_witness :
  let env :=
    {| resolveSessionKeyForRun := resolveSessionKeyForRun env_s1;
       runContext_verboseLevel := fun _ => None;
       normalizeVerboseLevel := fun v => v;
       loadSessionEntry :=
         fun _ => Some {| entry_verboseLevel := Some "off";
                          cfg_verboseDefault := Some "on" |};
       formatForLog := formatForLog env_s1;
       now_gap := now_gap env_s1;
       now_delta := now_delta env_s1 |} in
  shouldEmitToolEvents env "r1" (Some "s1") = false /\
  shouldEmitToolEvents env_s1 "r1" (Some "s1") = false.
Proof.
  intros env. split.
  - exact (proj1 (proj2 (proj2 (proj2 (shouldEmitToolEvents_levels env "r1" (Some "s1")))))
             eq_refl "s1"
             {| entry_verboseLevel := Some "off"; cfg_verboseDefault := Some "on" |}
             eq_refl eq_refl eq_refl).
  - exact (proj1 (proj2 (proj2 (shouldEmitToolEvents_levels env_s1 "r1" (Some "s1"))))
             eq_refl "s1" eq_refl eq_refl).
Defined.

End RouterMoreConcrete.

(** ** Client reconciler: the other notifications *)

Section ReconcilerMore.

Import Chat ChatUse.

Context {Client : Type}.
Variable extractText : option JS.value -> option string.

Implicit Types (state : @ChatState Client) (payload : ChatEventPayload)
         (l : list StreamingMessage).

(** The notification passes both guards. *)
Lemma accepted_guards now state payload st :
  snd (handleChatEvent extractText now state (Some payload)) = Some st ->
  st = Payload.state payload /\
  negb (String.eqb (Payload.sessionKey payload) (sessionKey state)) = false /\
  JS.truthy_string (Payload.runId payload) && JS.truthy (chatRunId state)
  && negb (bool_decide (Some (Payload.runId payload) = chatRunId state)) = false.
Proof.
  unfold handleChatEvent.
  destruct (negb (String.eqb (Payload.sessionKey payload) (sessionKey state)));
    [discriminate|].
  destruct (JS.truthy_string (Payload.runId payload) && JS.truthy (chatRunId state)
            && negb (bool_decide (Some (Payload.runId payload) = chatRunId state)));
    [discriminate|].
  cbn. by intros [= <-].
Qed.

Ltac open_handler H :=
  let Hs := fresh "Hs" in
  let Hr := fresh "Hr" in
  let Hst := fresh "Hst" in
  destruct (accepted_guards _ _ _ _ H) as (Hst & Hs & Hr);
  unfold handleChatEvent in *; rewrite Hs, Hr in *; cbn [fst snd] in *.

(** X16.  The tools-running counter never becomes negative: a state whose
    counter is not negative keeps it so under every notification, a
    tool-end leaves it non-negative whatever it was, and a tool-start
    followed by a tool-end brings a non-negative counter back to where it
    was.  After a tool-end that leaves the counter at 0 no tool is
    current. *)
Theorem tools_counter_floor now state payload :
  let state' := fst (handleChatEvent extractText now state (Some payload)) in
  (0 <= chatToolsRunning state -> 0 <= chatToolsRunning state') /\
  (snd (handleChatEvent extractText now state (Some payload)) = Some tool_end ->
   0 <= chatToolsRunning state' /\
   (chatToolsRunning state' = 0 -> chatCurrentTool state' = None)) /\
  (forall now' payload',
      0 <= chatToolsRunning state ->
      snd (handleChatEvent extractText now state (Some payload)) = Some tool_start ->
      snd (handleChatEvent extractText now' state' (Some payload')) = Some tool_end ->
      chatToolsRunning (fst (handleChatEvent extractText now' state' (Some payload')))
      = chatToolsRunning state).
Proof.
  cbn zeta. split; [|split].
  - intros Hn. unfold handleChatEvent.
    destruct (negb _); [done|]. destruct (_ && _ && _); [done|]. cbn [fst].
    destruct (Payload.state payload); cbn; unfold or_zero;
      repeat case_inner; cbn; try lia.
  - intros Hacc. open_handler Hacc. rewrite <- Hst. cbn.
    destruct (Z.eqb_spec (Z.max 0 (or_zero (chatToolsRunning state) - 1)) 0);
      cbn; split; try lia; done.
  - intros now' payload' Hn Hstart Hend.
    open_handler Hstart. rewrite <- Hst in *. cbn in Hend |- *.
    destruct (accepted_guards _ _ _ _ Hend) as (Hst' & Hs' & Hr').
    unfold handleChatEvent. cbn in Hs', Hr'. rewrite Hs', Hr'. rewrite <- Hst'. cbn.
    unfold or_zero. repeat case_inner; cbn; lia.
Qed.

(** *** The order of the streaming messages *)

Lemma Forall_above_indices a l l' :
  map index l = map index l' ->
  Forall (fun x => a < index x) l -> Forall (fun x => a < index x) l'.
Proof.
  revert l'. induction l as [|x l IH]; intros [|x' l']; try done.
  intros [= Hx Hl] Hall. inversion Hall; subst.
  constructor; [by rewrite <- Hx | by apply IH].
Qed.

Lemma ascending_indices l l' :
  map index l = map index l' -> ascending l -> ascending l'.
Proof.
  revert l'. induction l as [|m l IH]; intros [|m' l']; try done.
  intros [= Hm Hl] [Hall Hasc]. split; [|by apply IH].
  rewrite <- Hm. by apply (Forall_above_indices _ l).
Qed.

Lemma assign_text_indices messageIndex newText l :
  map index (assign_text messageIndex newText l) = map index l.
Proof.
  induction l as [|m l IH]; [done|]. cbn.
  destruct (Z.eqb (index m) messageIndex); cbn; [done | by rewrite IH].
Qed.

Lemma Forall_insert_by_index (P : StreamingMessage -> Prop) m l :
  P m -> Forall P l -> Forall P (insert_by_index m l).
Proof.
  intros Hm Hl. induction Hl as [|x l Hx Hl IH]; cbn; [by repeat constructor|].
  destruct (Z.leb (index m) (index x)); repeat constructor; auto.
Qed.

Lemma ascending_insert m l :
  ascending l -> Forall (fun x => index x <> index m) l ->
  ascending (insert_by_index m l).
Proof.
  induction l as [|x l IH]; cbn; [done|].
  intros [Hall Hasc] Hne. inversion Hne as [|? ? Hx Hne']; subst.
  destruct (Z.leb_spec (index m) (index x)).
  - cbn. split; [|done]. constructor; [lia|].
    eapply Forall_impl; [exact Hall|]. cbn. intros; lia.
  - cbn. split; [|by apply IH]. apply Forall_insert_by_index; [lia | done].
Qed.

Lemma ascending_append_sorted m l :
  ascending l -> Forall (fun x => index x <> index m) l ->
  ascending (sort_by_index (l ++ [m])).
Proof.
  induction l as [|x l IH]; cbn; [done|].
  intros [Hall Hasc] Hne. inversion Hne as [|? ? Hx Hne']; subst.
  apply ascending_insert; [by apply IH|].
  apply Forall_forall. intros y [Hy|[<-|[]]]%list_elem_of_In%In_sort_by_index%in_app_or.
  - rewrite Forall_forall in Hall. specialize (Hall y (proj2 (list_elem_of_In _ _) Hy)).
    cbn in Hall. lia.
  - done.
Qed.

(** X17.  Streaming messages in strictly ascending order of index, hence
    with pairwise different indices, stay so under every notification. *)
Theorem streaming_messages_stay_ascending now state (received : option ChatEventPayload) :
  ascending (chatStreamMessages state) ->
  ascending (chatStreamMessages (fst (handleChatEvent extractText now state received))).
Proof.
  intros Hasc. destruct received as [payload|]; [|done]. unfold handleChatEvent.
  destruct (negb _); [done|]. destruct (_ && _ && _); [done|]. cbn [fst].
  destruct (Payload.state payload); cbn; try done.
  - destruct (extractText (Payload.message payload)) as [newText|]; [|done].
    set (i := default 0 (Payload.messageIndex payload)).
    destruct (find (fun m => Z.eqb (index m) i) (chatStreamMessages state)) eqn:Hf; cbn.
    + eapply ascending_indices; [|exact Hasc]. by rewrite assign_text_indices.
    + apply ascending_append_sorted; [done|].
      apply Forall_forall. intros m Hm%list_elem_of_In.
      cbn. by apply (find_index_None i (chatStreamMessages state)).
  - by destruct (Z.eqb _ 0).
Qed.

(** X18.  An accepted delta whose text can be extracted makes the message
    at its index carry that text and touches no other message: the first
    message found at the index has the new text, and a message with another
    index is in the list afterwards exactly when it was before.  A delta
    whose text cannot be extracted is accepted and changes nothing. *)
Theorem delta_updates_one_index now state payload :
  snd (handleChatEvent extractText now state (Some payload)) = Some delta ->
  let state' := fst (handleChatEvent extractText now state (Some payload)) in
  let i := default 0 (Payload.messageIndex payload) in
  (forall newText,
      extractText (Payload.message payload) = Some newText ->
      (exists m, find (fun m => Z.eqb (index m) i) (chatStreamMessages state') = Some m /\
                 text m = newText) /\
      (forall m, index m <> i ->
                 (In m (chatStreamMessages state') <-> In m (chatStreamMessages state)))) /\
  (extractText (Payload.message payload) = None -> state' = state).
Proof.
  intros Hacc. cbn zeta. open_handler Hacc. rewrite <- Hst. cbn.
  set (i := default 0 (Payload.messageIndex payload)).
  split; [|by intros ->].
  intros newText ->.
  destruct (find (fun m => Z.eqb (index m) i) (chatStreamMessages state)) as [old|] eqn:Hf;
    cbn.
  - split.
    + rewrite (find_assign_text i newText _ _ Hf). eauto.
    + intros m Hm. clear Hf. induction (chatStreamMessages state) as [|x l IH]; [done|].
      cbn. destruct (Z.eqb_spec (index x) i) as [Hx|Hx]; cbn.
      * split; intros [<-|?]; auto; cbn in Hm; congruence.
      * rewrite IH. done.
  - set (newMsg := mkStreamingMessage i newText now). split.
    + destruct (find_index_Some i (sort_by_index (chatStreamMessages state ++ [newMsg]))
                  newMsg) as [m Hm];
        [apply In_sort_by_index, in_or_app; right; by left | done |].
      exists m. split; [done|].
      pose proof (find_some _ _ Hm) as [Hin Hidx].
      apply In_sort_by_index, in_app_or in Hin as [Hin|[<-|[]]]; [|done].
      apply Z.eqb_eq in Hidx. by destruct (find_index_None i _ Hf m Hin).
    + intros m Hm. rewrite In_sort_by_index, in_app_iff. cbn.
      split; [intros [?|[<-|[]]]; [done | by destruct Hm] | auto].
Qed.

(** X19.  [handleChatEvent] writes only the streaming state: the client,
    the connection flag, the session key, the loading and sending flags,
    the message history, the thinking level and the draft are never
    changed, and the last error changes only on an accepted error
    notification. *)
Theorem handleChatEvent_frame now state (received : option ChatEventPayload) :
  let state' := fst (handleChatEvent extractText now state received) in
  client state' = client state /\
  connected state' = connected state /\
  sessionKey state' = sessionKey state /\
  chatLoading state' = chatLoading state /\
  chatMessages state' = chatMessages state /\
  chatThinkingLevel state' = chatThinkingLevel state /\
  chatSending state' = chatSending state /\
  chatMessage state' = chatMessage state /\
  (snd (handleChatEvent extractText now state received) <> Some error ->
   lastError state' = lastError state).
Proof.
  cbn zeta. destruct received as [payload|]; [|by repeat split].
  unfold handleChatEvent.
  destruct (negb _); [by repeat split|]. destruct (_ && _ && _); [by repeat split|].
  cbn [fst snd]. destruct (Payload.state payload); cbn;
    repeat case_inner; cbn; repeat split; congruence.
Qed.

(** X20.  The run guard is off while no run is active: with [chatRunId]
    null or empty, every notification for the session is accepted whatever
    run it names.  After an accepted final, aborted or error notification
    the state is such: no run is active, no message is streaming, no tool
    is running or current; an error records its message, or "chat error"
    when it has none. *)
Theorem terminal_notification_makes_idle now state payload :
  (JS.truthy (chatRunId state) = false ->
   Payload.sessionKey payload = sessionKey state ->
   snd (handleChatEvent extractText now state (Some payload))
   = Some (Payload.state payload)) /\
  (forall st,
      snd (handleChatEvent extractText now state (Some payload)) = Some st ->
      st = final \/ st = aborted \/ st = error ->
      let state' := fst (handleChatEvent extractText now state (Some payload)) in
      chatRunId state' = None /\ chatStreamMessages state' = [] /\
      chatToolsRunning state' = 0 /\ chatCurrentTool state' = None /\
      (st = error ->
       lastError state' = Some (default "chat error" (Payload.errorMessage payload)))).
Proof.
  split.
  - intros Hidle Hsk. unfold handleChatEvent.
    rewrite Hsk, String.eqb_refl, Hidle, andb_false_r. reflexivity.
  - intros st Hacc Hterm. cbn zeta. open_handler Hacc. rewrite <- Hst.
    destruct Hterm as [-> | [-> | ->]]; cbn; repeat split; discriminate.
Qed.

End ReconcilerMore.

Section ReconcilerMoreConcrete.

Import Chat ChatUse ClientScenario.

(** A tool start and its tool end. *)
Lemma tools_counter_floor_witness :
  let started := fst (handleChatEvent text_of 7 streaming (Some (notify tool_start 0 ""))) in
  chatToolsRunning started = 1 /\
  chatToolsRunning (fst (handleChatEvent text_of 8 started (Some (notify tool_end 0 ""))))
  = chatToolsRunning streaming.
Proof.
  intros started. split; [reflexivity|].
  apply (proj2 (proj2 (tools_counter_floor text_of 7 streaming (notify tool_start 0 "")))
           8 (notify tool_end 0 "")); [cbn; lia | reflexivity | reflexivity].
Defined.

(** A delta for index 1 lands between the messages 0 and 2. *)
Lemma streaming_messages_stay_ascending_witness :
  map index
    (chatStreamMessages
       (fst (handleChatEvent text_of 7 streaming (Some (notify delta 1 "Searching")))))
  = [0; 1; 2] /\
  ascending
    (chatStreamMessages
       (fst (handleChatEvent text_of 7 streaming (Some (notify delta 1 "Searching"))))).
Proof.
  split; [reflexivity|].
  apply (streaming_messages_stay_ascending text_of 7 streaming
           (Some (notify delta 1 "Searching"))).
  cbn. repeat split; repeat constructor; cbn; lia.
Defined.

(** A delta for index 2 replaces the text of the message at index 2. *)
Lemma delta_updates_one_index_witness :
  let state' := fst (handleChatEvent text_of 7 streaming (Some (notify delta 2 "Found it"))) in
  exists m, find (fun m => Z.eqb (index m) 2) (chatStreamMessages state') = Some m /\
            text m = "Found it".
Proof.
  intros state'.
  apply (proj1 (proj1 (delta_updates_one_index text_of 7 streaming
                         (notify delta 2 "Found it") eq_refl) "Found it" eq_refl)).
Defined.

(** A final notification leaves the last error as it was. *)
Lemma handleChatEvent_frame_witness :
  lastError (fst (handleChatEvent text_of 7 streaming (Some (notify final 0 ""))))
  = lastError streaming.
Proof.
  apply (handleChatEvent_frame text_of 7 streaming (Some (notify final 0 ""))).
  discriminate.
Defined.

(** An error without a message. *)
Lemma terminal_notification_makes_idle_witness :
  let state' := fst (handleChatEvent text_of 7 streaming (Some (notify error 0 ""))) in
  chatRunId state' = None /\ chatStreamMessages state' = [] /\
  chatToolsRunning state' = 0 /\ chatCurrentTool state' = None /\
  (error = error -> lastError state' = Some "chat error").
Proof.
  intros state'.
  apply (proj2 (terminal_notification_makes_idle text_of 7 streaming (notify error 0 ""))
           error eq_refl).
  right. right. reflexivity.
Defined.

End ReconcilerMoreConcrete.

(** ** The splicing controller: where the current run starts *)

Section RunStart.

Import ChatSplice.

Implicit Types (messages below : list JS.value).

Lemma scan_down_skip skipped tail k :
  Forall (fun m => role_is_user m = Some false) skipped ->
  scan_down (skipped ++ tail) (length skipped + k) = scan_down tail k.
Proof.
  induction 1 as [|m skipped Hm _ IH]; [done|]. cbn. by rewrite Hm.
Qed.

Lemma scan_down_found below n :
  scan_down below (length below) = Some n ->
  exists skipped,
    Forall (fun m => role_is_user m = Some false) skipped /\
    ((n = 0%nat /\ below = skipped) \/
     exists u rest, below = skipped ++ u :: rest /\ role_is_user u = Some true /\
                    n = S (length rest)).
Proof.
  induction below as [|m below IH]; cbn.
  - intros [= <-]. exists []. split; [constructor | by left].
  - destruct (role_is_user m) as [[|]|] eqn:Hm; [| |discriminate].
    + intros [= <-]. exists []. split; [constructor|]. right. by exists m, below.
    + intros (skipped & Hskipped & H)%IH. exists (m :: skipped).
      split; [by constructor|].
      destruct H as [[-> ->]|(u & rest & -> & Hu & ->)]; [by left|].
      right. by exists u, rest.
Qed.

(** X21.  [findRunStartIndex] returns the position just after the last
    message whose role is "user", and 0 when there is none: it returns [n]
    exactly when no message from position [n] on is a user message and
    either [n] is 0 and there is no message before, or the message at
    [n - 1] is a user message.  It can only fail on a [null] message, and
    only on one that comes after the last user message. *)
Theorem findRunStartIndex_after_last_user messages :
  (forall n,
      findRunStartIndex messages = Some n <->
      exists after,
        Forall (fun m => role_is_user m = Some false) after /\
        ((n = 0%nat /\ messages = after) \/
         exists before u, messages = before ++ u :: after /\
                          role_is_user u = Some true /\ n = S (length before))) /\
  (findRunStartIndex messages = None ->
   exists before x after,
     messages = before ++ x :: after /\ role_is_user x = None /\
     Forall (fun m => role_is_user m = Some false) after).
Proof.
  unfold findRunStartIndex. split.
  - intros n. split.
    + rewrite <- length_rev. intros (skipped & Hskipped & H)%scan_down_found.
      exists (rev skipped). split; [by apply Forall_rev|].
      destruct H as [[-> H]|(u & rest & H & Hu & ->)].
      * left. split; [done|]. by rewrite <- H, rev_involutive.
      * right. exists (rev rest), u. rewrite length_rev. repeat split; [|done].
        rewrite <- (rev_involutive messages), H, rev_app_distr. cbn.
        by rewrite <- app_assoc.
    + intros (after & Hafter & H).
      assert (Hrev : Forall (fun m => role_is_user m = Some false) (rev after))
        by by apply Forall_rev.
      destruct H as [[-> ->]|(before & u & -> & Hu & ->)].
      * pose proof (scan_down_skip (rev after) [] 0 Hrev) as H.
        by rewrite app_nil_r, Nat.add_0_r, length_rev in H.
      * pose proof (scan_down_skip (rev after) (u :: rev before) (S (length before)) Hrev)
          as H.
        replace (rev (before ++ u :: after)) with (rev after ++ u :: rev before)
          by (rewrite rev_app_distr; cbn; by rewrite <- app_assoc).
        replace (length (before ++ u :: after))
          with (length (rev after) + S (length before))%nat
          by (rewrite length_app, length_rev; cbn; lia).
        rewrite H. cbn. by rewrite Hu.
  - rewrite <- length_rev. generalize (rev_involutive messages).
    generalize (rev messages) as below. intros below <-.
    induction below as [|m below IH]; cbn [scan_down length pred]; [discriminate|].
    destruct (role_is_user m) as [[|]|] eqn:Hm; [discriminate| |].
    + intros (before & x & after & Hb & Hx & Hafter)%IH.
      exists before, x, (after ++ [m]). cbn [rev]. rewrite Hb, <- app_assoc.
      repeat split; [done|]. apply Forall_app. split; [done | by repeat constructor].
    + intros _. exists (rev below), m, []. repeat split; [done | constructor].
Qed.

End RunStart.

(** ** Tool card pairer: sizes, order, precedence *)

Section PairerMore.

Import GroupedRender PairerUse.

Implicit Types (resultCards callCards pool : list ToolCard) (callCard r : ToolCard).

Lemma pairToolCards_as_worded callCards resultCards :
  pairToolCards callCards resultCards = Some (spec_pair callCards resultCards).
Proof.
  unfold pairToolCards.
  destruct (pair_calls_spec_pair resultCards callCards [] ∅)
    as (merged & used & Hrun & _ & Hout).
  rewrite Hrun. cbn. by rewrite Hout, orphans_from_empty.
Qed.

Lemma take_first_length p pool r pool' :
  take_first p pool = Some (r, pool') -> length pool = S (length pool').
Proof.
  revert pool'. induction pool as [|x pool IH]; intros pool'; cbn; [discriminate|].
  destruct (p x).
  { intros Heq. injection Heq as Hr Hp. by subst. }
  destruct (take_first p pool) as [[y others]|]; [|discriminate].
  intros Heq. injection Heq as Hr Hp. subst. cbn. by rewrite (IH others).
Qed.

Lemma take_first_split p pre r post :
  Forall (fun x => p x = false) pre -> p r = true ->
  take_first p (pre ++ r :: post) = Some (r, pre ++ post).
Proof.
  intros Hpre Hr. induction Hpre as [|x pre Hx _ IH]; cbn; [by rewrite Hr|].
  by rewrite Hx, IH.
Qed.

Lemma take_first_none p pool :
  Forall (fun x => p x = false) pool -> take_first p pool = None.
Proof. induction 1 as [|x pool Hx _ IH]; cbn; [done|]. by rewrite Hx, IH. Qed.

Lemma spec_match_length callCard pool r pool' :
  spec_match callCard pool = Some (r, pool') -> length pool = S (length pool').
Proof.
  unfold spec_match.
  destruct (if JS.truthy (id callCard) then _ else _) as [[r0 p0]|] eqn:Hid.
  - intros [= <- <-]. destruct (JS.truthy (id callCard)); [|discriminate].
    by apply take_first_length in Hid.
  - apply take_first_length.
Qed.

(** X22.  Pairing never fails, loses no card and invents none: the output
    has at least as many cards as there are calls, at least as many as
    there are results, and at most as many as both together. *)
Theorem pairToolCards_length callCards resultCards :
  exists out,
    pairToolCards callCards resultCards = Some out /\
    (length callCards <= length out)%nat /\
    (length resultCards <= length out)%nat /\
    (length out <= length callCards + length resultCards)%nat.
Proof.
  exists (spec_pair callCards resultCards). split; [apply pairToolCards_as_worded|].
  revert resultCards. induction callCards as [|c cs IH]; intros pool; cbn.
  - lia.
  - destruct (spec_match c pool) as [[r pool']|] eqn:Hm; cbn.
    + apply spec_match_length in Hm. specialize (IH pool'). lia.
    + specialize (IH pool). lia.
Qed.

Lemma orphans_from_sublist i resultCards usedResults :
  orphans_from i resultCards usedResults `sublist_of` resultCards.
Proof.
  revert i. induction resultCards as [|r rest IH]; intros i; cbn; [done|].
  destruct (bool_decide (i ∈ usedResults)); [by apply sublist_cons | by apply sublist_skip].
Qed.

(** X23.  The output keeps the order of its input: its first cards are the
    calls, one for one and in their order, each with the kind, identifier
    and name of its call; the cards after them are result cards that were
    given, unchanged and in their order. *)
Theorem pairToolCards_order callCards resultCards :
  exists out,
    pairToolCards callCards resultCards = Some out /\
    Forall2 shows_call callCards (take (length callCards) out) /\
    drop (length callCards) out `sublist_of` resultCards.
Proof.
  unfold pairToolCards.
  destruct (pair_calls_spec_pair resultCards callCards [] ∅)
    as (merged & used & Hrun & Hall & _).
  rewrite Hrun. cbn. eexists. split; [reflexivity|].
  pose proof (Forall2_length _ _ _ Hall) as Hlen.
  rewrite Hlen, take_app_length, drop_app_length.
  split; [|apply orphans_from_sublist].
  eapply Forall2_impl; [exact Hall|].
  intros c out [->|(r & _ & ->)]; by repeat split.
Qed.

(** X24.  Without result cards the output is the calls as they are, all
    pending; without calls it is the result cards as they are. *)
Theorem pairToolCards_empty_side cards :
  pairToolCards cards [] = Some cards /\ pairToolCards [] cards = Some cards.
Proof.
  rewrite !pairToolCards_as_worded. split; [|done].
  induction cards as [|c cs IH]; cbn; [done|].
  unfold spec_match. cbn. destruct (JS.truthy (id c)); cbn; congruence.
Qed.

(** X25.  One call against the result cards.  A call with an identifier
    takes the first result that has this identifier, even when an earlier
    result has the call's name.  A call without an identifier, or whose
    identifier no result has, takes the first result that has its name.
    Otherwise the call stays pending and every result stays. *)
Theorem pair_one_call callCard before r after :
  let byId x := bool_decide (id x = id callCard) in
  let byName x := String.eqb (name x) (name callCard) in
  (JS.truthy (id callCard) = true ->
   Forall (fun x => byId x = false) before -> byId r = true ->
   pairToolCards [callCard] (before ++ r :: after)
   = Some (merge callCard r :: before ++ after)) /\
  (JS.truthy (id callCard) = false \/
   Forall (fun x => byId x = false) (before ++ r :: after) ->
   Forall (fun x => byName x = false) before -> byName r = true ->
   pairToolCards [callCard] (before ++ r :: after)
   = Some (merge callCard r :: before ++ after)) /\
  (JS.truthy (id callCard) = false \/
   Forall (fun x => byId x = false) (before ++ r :: after) ->
   Forall (fun x => byName x = false) (before ++ r :: after) ->
   pairToolCards [callCard] (before ++ r :: after)
   = Some (callCard :: before ++ r :: after)).
Proof.
  cbn zeta. rewrite !pairToolCards_as_worded. cbn [spec_pair]. unfold spec_match.
  split; [|split].
  - intros -> Hbefore Hr.
    by rewrite (take_first_split (same_id callCard)).
  - intros Hid Hbefore Hr.
    assert (Hnone : (if JS.truthy (id callCard)
                     then take_first (same_id callCard) (before ++ r :: after)
                     else None) = None).
    { destruct Hid as [->|Hid]; [done|].
      destruct (JS.truthy (id callCard)); [|done]. by apply take_first_none. }
    rewrite Hnone. by rewrite (take_first_split (same_name callCard)).
  - intros Hid Hname.
    assert (Hnone : (if JS.truthy (id callCard)
                     then take_first (same_id callCard) (before ++ r :: after)
                     else None) = None).
    { destruct Hid as [->|Hid]; [done|].
      destruct (JS.truthy (id callCard)); [|done]. by apply take_first_none. }
    rewrite Hnone. by rewrite (take_first_none (same_name callCard)).
Qed.

End PairerMore.

Section PairerMoreConcrete.

Import GroupedRender ChatSplice.

(** The result with the call's id is taken, not the earlier one with its name. *)
Lemma pair_one_call_witness :
  let c := mkToolCard call (Some "a") "search" None in
  let byName := mkToolCard result (Some "b") "search" (Some "other run") in
  let byId := mkToolCard result (Some "a") "find" (Some "5 results") in
  pairToolCards [c] [byName; byId]
  = Some [mkToolCard call (Some "a") "search" (Some "5 results"); byName].
Proof.
  intros c byName byId.
  apply (proj1 (pair_one_call c [byName] byId [])); [reflexivity | | reflexivity].
  repeat constructor.
Defined.

(** A history of a user message, an assistant message, and a number. *)
Lemma findRunStartIndex_after_last_user_witness :
  let user := JS.VObj [JS.Field "role" (JS.VStr "user")] in
  let assistant := JS.VObj [JS.Field "role" (JS.VStr "assistant")] in
  findRunStartIndex [assistant; user; assistant; JS.VNum 3] = Some 2%nat.
Proof.
  intros user assistant.
  apply (proj1 (findRunStartIndex_after_last_user [assistant; user; assistant; JS.VNum 3])).
  exists [assistant; JS.VNum 3]. split; [by repeat constructor|].
  right. by exists [assistant], user.
Defined.

End PairerMoreConcrete.

(** ** Avatars *)

Section AvatarUrl.

Import Stdlib.Strings.Ascii Avatar.

Lemma starts_with_ci_spec pattern s :
  starts_with_ci pattern s = true <->
  exists p rest, s = String.append p rest /\ fold_string p = fold_string pattern.
Proof.
  revert s. induction pattern as [|a pattern IH]; intros s; cbn.
  - split; [|done]. intros _. by exists EmptyString, s.
  - destruct s as [|b s].
    + split; [discriminate|]. intros ([|c p] & rest & Hs & Hp); discriminate.
    + rewrite andb_true_iff, IH, Ascii.eqb_eq. split.
      * intros (Hab & p & rest & -> & Hp). exists (String b p), rest.
        cbn. by rewrite Hp, Hab.
      * intros ([|c p] & rest & Hs & Hp); [discriminate|].
        cbn in Hs, Hp. injection Hs as -> ->. injection Hp as Hc Hp.
        split; [done|]. by exists p, rest.
Qed.

Lemma fold_case_slash a : fold_case a = "/"%char -> a = "/"%char.
Proof.
  destruct a as [[] [] [] [] [] [] [] []]; vm_compute; congruence.
Qed.

Lemma prefix_slash s :
  String.prefix "/" s = true <-> exists rest, s = String "/"%char rest.
Proof.
  destruct s as [|b s].
  - split; [discriminate | intros [rest H]; discriminate].
  - change (String.prefix "/" (String b s))
      with (if Ascii.ascii_dec "/"%char b then String.prefix "" s else false).
    destruct (Ascii.ascii_dec "/"%char b) as [<-|Hne].
    + split; [by exists s | by destruct s].
    + split; [discriminate|]. intros [rest H]. injection H as Hb _. congruence.
Qed.

(** X26.  [isAvatarUrl] accepts exactly the values that begin with
    [http://], [https://] or [data:image/], in any mix of upper and lower
    case, or with a slash; whatever follows is not looked at, and the empty
    string is refused. *)
Theorem isAvatarUrl_prefixes value :
  (isAvatarUrl value = true <->
   exists p rest,
     value = String.append p rest /\
     In (fold_string p) ["http://"; "https://"; "data:image/"; "/"]) /\
  (forall more, isAvatarUrl value = true -> isAvatarUrl (String.append value more) = true) /\
  isAvatarUrl "" = false.
Proof.
  assert (Hiff : forall v,
    isAvatarUrl v = true <->
    exists p rest,
      v = String.append p rest /\
      In (fold_string p) ["http://"; "https://"; "data:image/"; "/"]).
  { intros v. unfold isAvatarUrl.
    rewrite !orb_true_iff, !starts_with_ci_spec, prefix_slash. split.
    - intros [[[H|H]|H]|[rest ->]].
      + destruct H as (p & rest & -> & Hp). exists p, rest. cbn. auto.
      + destruct H as (p & rest & -> & Hp). exists p, rest. cbn. auto.
      + destruct H as (p & rest & -> & Hp). exists p, rest. cbn. auto 6.
      + exists "/", rest. cbn. auto 6.
    - intros (p & rest & -> & [Hp|[Hp|[Hp|[Hp|[]]]]]).
      + left. left. left. by exists p, rest.
      + left. left. right. by exists p, rest.
      + left. right. by exists p, rest.
      + right. destruct p as [|a [|b p]]; try discriminate.
        cbn in Hp. injection Hp as Ha. symmetry in Ha.
        apply fold_case_slash in Ha as ->. by exists rest. }
  split; [apply Hiff|]. split; [|reflexivity].
  intros more (p & rest & -> & Hp)%Hiff. apply Hiff.
  exists p, (String.append rest more). split; [|done].
  clear Hp. induction p as [|a p IH]; [done|].
  change (String a (String.append (String.append p rest) more)
          = String a (String.append p (String.append rest more))).
  by f_equal.
Qed.

End AvatarUrl.

(** An upper-case scheme, and a path of the avatar endpoint. *)
Lemma isAvatarUrl_prefixes_witness :
  Avatar.isAvatarUrl "HTTPS://example.org/a.png?size=64" = true /\
  Avatar.isAvatarUrl "/avatar/main/small" = true.
Proof.
  split.
  - apply (proj1 (proj2 (isAvatarUrl_prefixes "HTTPS://example.org/a.png") )
             "?size=64"). reflexivity.
  - apply (proj1 (proj2 (isAvatarUrl_prefixes "/avatar/main")) "/small"). reflexivity.
Defined.
